(** * Study Assistant API: a shallow embedding of [main.py]

    The request handlers of the FastAPI service are embedded as programs
    over two kinds of outside calls (the document store and the HTTP
    translation/detection services); the text heuristics (sentence
    splitting, keyword extraction, context building) are embedded as
    executable functions on Python strings. *)

From Stdlib Require Import String Ascii NArith ZArith List Lia.
From stdpp Require Import gmap list.

Set Warnings "-register-all".

(** ** Python strings

    A Python [str] is a sequence of Unicode code points; [len], slicing,
    [strip], [split] and the [re] module all count in code points. *)

Abbreviation char := N (only parsing).
Abbreviation str := (list N) (only parsing).

(** An ASCII literal of the source, as a [str]. *)
Definition lit (s : string) : str := map N_of_ascii (list_ascii_of_string s).

Module PyStr.

Local Open Scope N_scope.

(** [Py_UNICODE_ISSPACE]: the test behind [str.strip], [str.split] and the
    [\s] class of a [str] pattern. *)
Definition isspace (c : char) : bool :=
  ((9 <=? c) && (c <=? 13)) || ((28 <=? c) && (c <=? 32))
  || (c =? 133) || (c =? 160) || (c =? 5760)
  || ((8192 <=? c) && (c <=? 8202))
  || (c =? 8232) || (c =? 8233) || (c =? 8239) || (c =? 8287)
  || (c =? 12288).

(** The character class [[.!?]]. *)
Definition is_terminator (c : char) : bool :=
  (c =? 46) || (c =? 33) || (c =? 63).

Local Close Scope N_scope.

(** [s.lstrip()] *)
Fixpoint lstrip (s : str) : str :=
  match s with
  | c :: s' => if isspace c then lstrip s' else s
  | [] => []
  end.

(** [s.rstrip()] *)
Definition rstrip (s : str) : str := rev (lstrip (rev s)).

(** [s.strip()] *)
Definition strip (s : str) : str := rstrip (lstrip s).

(** [s.split()]: maximal runs of non-whitespace, in order.  [word] is the
    run being read, most recent character first. *)
Fixpoint split_from (word : str) (s : str) : list str :=
  match s with
  | [] => match word with [] => [] | _ => [rev word] end
  | c :: s' =>
      if isspace c
      then match word with
           | [] => split_from [] s'
           | _ => rev word :: split_from [] s'
           end
      else split_from (c :: word) s'
  end.

Definition split (s : str) : list str := split_from [] s.

(** [sep.join(parts)] for parts that are all [str]. *)
Fixpoint join (sep : str) (parts : list str) : str :=
  match parts with
  | [] => []
  | [p] => p
  | p :: rest => p ++ sep ++ join sep rest
  end.

(** [l[i]] with Python's negative indices; [None] is [IndexError]. *)
Definition index {A} (l : list A) (i : Z) : option A :=
  let n := Z.of_nat (length l) in
  if decide (0 <= i < n)%Z then l !! Z.to_nat i
  else if decide (- n <= i < 0)%Z then l !! Z.to_nat (n + i)
  else None.

(** Truthiness of an [Optional[str]]: [None] and [""] are falsy. *)
Definition truthy (o : option str) : bool :=
  match o with
  | Some (_ :: _) => true
  | _ => false
  end.

End PyStr.

(** ** [re.split(r"(?<=[.!?])\s+", text)]

    The pattern matches a maximal, non-empty run of whitespace that starts
    right after one of [.], [!], [?].  [re.split] cuts the text at the
    leftmost such matches, drops the matched whitespace and keeps the pieces
    in between (the last piece runs to the end of the text). *)

Module Sentences.
Import PyStr.

(** Where the scan stands relative to the pattern. *)
Inductive scan :=
  | AfterTerminator  (* the previous character is one of . ! ? *)
  | AfterOther       (* start of text, or any other previous character *)
  | InGap.           (* inside a match of \s+ *)

Definition after (c : char) : scan :=
  if is_terminator c then AfterTerminator else AfterOther.

(** [piece] is the piece being read, most recent character first. *)
Fixpoint split_scan (st : scan) (piece : str) (s : str) : list str :=
  match s with
  | [] => [rev piece]
  | c :: s' =>
      match st with
      | InGap =>
          if isspace c then split_scan InGap [] s'
          else split_scan (after c) [c] s'
      | AfterTerminator =>
          if isspace c then rev piece :: split_scan InGap [] s'
          else split_scan (after c) (c :: piece) s'
      | AfterOther => split_scan (after c) (c :: piece) s'
      end
  end.

Definition re_split (text : str) : list str := split_scan AfterOther [] text.

(** A sentence boundary: a terminator directly followed by whitespace. *)
Fixpoint has_boundary (s : str) : bool :=
  match s with
  | p :: (c :: _) as s' => (is_terminator p && isspace c) || has_boundary s'
  | _ => false
  end.

(** The number of sentence boundaries in the text. *)
Fixpoint count_boundaries (s : str) : nat :=
  match s with
  | p :: (c :: _) as s' =>
      (if is_terminator p && isspace c then 1 else 0) + count_boundaries s'
  | _ => 0
  end.

(** [separated pieces text]: [text] is the [pieces] in order, with a
    non-empty run of whitespace between neighbours. *)
Inductive separated : list str -> str -> Prop :=
  | separated_last piece : separated [piece] piece
  | separated_more piece gap pieces text :
      gap <> [] -> forallb isspace gap = true ->
      separated pieces text ->
      separated (piece :: pieces) (piece ++ gap ++ text).

(** The piece ends with one of [.], [!], [?]. *)
Definition ends_with_terminator (piece : str) : Prop :=
  exists body p, piece = body ++ [p] /\ is_terminator p = true.

(** Whether the text begins with a whitespace character. *)
Definition starts_with_space (s : str) : bool :=
  match s with
  | c :: _ => isspace c
  | [] => false
  end.

End Sentences.

(** ** Python values

    What the handlers pass around dynamically: parsed JSON bodies, store
    documents (which may carry a store-native [ObjectId]) and the dicts the
    handlers build as filters, form data and response bodies. *)

Inductive value : Type :=
  | VNone
  | VBool (b : bool)
  | VInt (z : Z)
  | VFloat (lexeme : str)
  | VStr (s : str)
  | VObjectId (hex : str)
  | VList (items : list value)
  | VDict (d : gmap str value).

(** A store document: a Python [dict] with string keys. *)
Abbreviation doc := (gmap str value) (only parsing).

(** ** Outside calls

    A handler is a program that may call the document store
    ([get_documents], imported from the [database] module) and the HTTP
    services ([requests.post] followed by [r.json()]).  Either call may raise;
    the exception is recorded by its [str(e)]. *)

Inductive outcome (A : Type) : Type :=
  | Raised (message : str)
  | Returned (a : A).
Arguments Raised {A} message.
Arguments Returned {A} a.

Inductive prog (R : Type) : Type :=
  | Ret (r : R)
  | GetDocuments (collection : str) (filter_dict : value) (limit : Z)
      (k : outcome (list doc) -> prog R)
  | PostJson (url : str) (data : value) (k : outcome value -> prog R).
Arguments Ret {R} r.
Arguments GetDocuments {R} collection filter_dict limit k.
Arguments PostJson {R} url data k.

(** What FastAPI sends back for a handler run. *)
Inductive response : Type :=
  | Ok (body : value)                               (* 200 with the returned dict *)
  | HTTPException (status_code : Z) (detail : str)  (* raise HTTPException(...) *)
  | Uncaught (exception : str).                     (* an exception leaves the handler *)

(** The outside world, and the calls a run makes to it, in order. *)
Record world : Type := World {
  store : str -> value -> Z -> outcome (list doc);
  http : str -> value -> outcome value
}.

Inductive event : Type :=
  | Queried (collection : str) (filter_dict : value) (limit : Z)
  | Posted (url : str) (data : value).

Fixpoint run {R} (w : world) (p : prog R) : list event * R :=
  match p with
  | Ret r => ([], r)
  | GetDocuments c f n k =>
      let (tr, r) := run w (k (store w c f n)) in (Queried c f n :: tr, r)
  | PostJson u d k =>
      let (tr, r) := run w (k (http w u d)) in (Posted u d :: tr, r)
  end.

Definition result {R} (w : world) (p : prog R) : R := snd (run w p).
Definition trace {R} (w : world) (p : prog R) : list event := fst (run w p).

(** ** Request bodies *)

Module TextIn.
Record t := Make { text : str; target_lang : option str }.
End TextIn.

Module SummarizeIn.
Record t := Make { text : str; target_lang : option str }.
End SummarizeIn.

Module QuestionIn.
Record t := Make { question : str; target_lang : option str }.
End QuestionIn.

(** ** The handlers *)

Section Handlers.
Import PyStr Sentences.

(** [LIBRE_URL] and [TRANSLATE_URL] are read from the environment at start. *)
Variables LIBRE_URL TRANSLATE_URL : str.

(** [str.lower]: the interpreter's Unicode case mapping. *)
Variable lower : str -> str.

(** [repr] of the values whose [str(...)] is not spelled out below. *)
Variable repr : value -> str.

(** The builtin [str(v)]; an [ObjectId] prints as its hexadecimal form. *)
Definition str_of (v : value) : str :=
  match v with
  | VStr s => s
  | VObjectId hex => hex
  | _ => repr v
  end.

(** [x or d] for an [Optional[str]] [x]. *)
Definition or_else (x : option str) (d : str) : str :=
  match x with
  | Some (c :: s) => c :: s
  | _ => d
  end.

(** The form posted to the translation service:
    [{"q": q, "source": "auto", "target": target}]. *)
Definition translation_form (q target : str) : value :=
  VDict {[ lit "q" := VStr q;
           lit "source" := VStr (lit "auto");
           lit "target" := VStr target ]}.

Definition auto_language : value :=
  VDict {[ lit "language" := VStr (lit "auto"); lit "confidence" := VInt 0 ]}.

(** [POST /api/detect] *)
Definition detect_language (payload : TextIn.t) : prog response :=
  PostJson LIBRE_URL (VDict {[ lit "q" := VStr (TextIn.text payload) ]})
    (fun r =>
       match r with
       | Returned (VList (VDict first :: _)) =>
           Ret (Ok (VDict
             {[ lit "language" := default (VStr (lit "auto")) (first !! lit "language");
                lit "confidence" := default (VInt 0) (first !! lit "confidence") ]}))
       | Returned (VList (_ :: _)) =>
           (* data[0].get raises AttributeError, caught by [except Exception] *)
           Ret (Ok auto_language)
       | Returned _ => Ret (Ok auto_language)
       | Raised _ => Ret (Ok auto_language)
       end).

(** [POST /api/translate] *)
Definition translate_text (payload : TextIn.t) : prog response :=
  let target := or_else (TextIn.target_lang payload) (lit "en") in
  PostJson TRANSLATE_URL (translation_form (TextIn.text payload) target)
    (fun r =>
       let unchanged :=
         Ok (VDict {[ lit "translated" := VStr (TextIn.text payload);
                      lit "target" := VStr target ]}) in
       match r with
       | Raised message => Ret (HTTPException 500 message)
       | Returned (VDict data) =>
           match data !! lit "translatedText" with
           | Some translated =>
               Ret (Ok (VDict {[ lit "translated" := translated;
                                 lit "target" := VStr target ]}))
           | None => Ret unchanged
           end
       | Returned _ => Ret unchanged
       end).

(** The loop body of both listings:
    [if "_id" in d: d["id"] = str(d.pop("_id"))]. *)
Definition expose_id (d : doc) : doc :=
  match d !! lit "_id" with
  | Some oid => <[ lit "id" := VStr (str_of oid) ]> (delete (lit "_id") d)
  | None => d
  end.

Definition items (docs : list doc) : value :=
  VDict {[ lit "items" := VList (map VDict docs) ]}.

(** [{"tags": {"$in": [tag]}} if tag else {}] *)
Definition memory_filter (tag : option str) : value :=
  match tag with
  | Some (c :: s) =>
      VDict {[ lit "tags" := VDict {[ lit "$in" := VList [VStr (c :: s)] ]} ]}
  | _ => VDict ∅
  end.

(** [GET /api/memory] *)
Definition list_memory (tag : option str) (limit : Z) : prog response :=
  GetDocuments (lit "memorynote") (memory_filter tag) limit
    (fun r =>
       match r with
       | Returned docs => Ret (Ok (items (map expose_id docs)))
       | Raised message => Ret (HTTPException 500 message)
       end).

(** [{"session_id": session_id} if session_id else {}] *)
Definition conversation_filter (session_id : option str) : value :=
  match session_id with
  | Some (c :: s) => VDict {[ lit "session_id" := VStr (c :: s) ]}
  | _ => VDict ∅
  end.

(** [GET /api/conversation] *)
Definition get_conversation (session_id : option str) (limit : Z) : prog response :=
  GetDocuments (lit "conversationturn") (conversation_filter session_id) limit
    (fun r =>
       match r with
       | Returned docs => Ret (Ok (items (map expose_id docs)))
       | Raised message => Ret (HTTPException 500 message)
       end).

(** Lines 153-162 of [summarize], on the stripped text: the extractive
    summary before any translation.  [None] would be an [IndexError]. *)
Definition extractive_summary (text : str) : option str :=
  let sentences := re_split text in
  if decide (length sentences <= 3)%nat then Some text
  else
    let mid := (Z.of_nat (length sentences) / 2)%Z in
    first ← index sentences 0;
    middle ← index sentences mid;
    last ← index sentences (-1);
    Some (join (lit " ") [first; middle; last]).

(** [POST /api/summarize] *)
Definition summarize (payload : SummarizeIn.t) : prog response :=
  let text := strip (SummarizeIn.text payload) in
  match text with
  | [] => Ret (HTTPException 400 (lit "Text is required"))
  | _ :: _ =>
      match extractive_summary text with
      | None => Ret (Uncaught (lit "IndexError"))
      | Some summary =>
          let untranslated := Ok (VDict {[ lit "summary" := VStr summary ]}) in
          match SummarizeIn.target_lang payload with
          | Some (c :: s) =>
              PostJson TRANSLATE_URL (translation_form summary (c :: s))
                (fun r =>
                   match r with
                   | Returned (VDict data) =>
                       match data !! lit "translatedText" with
                       | Some translated =>
                           Ret (Ok (VDict {[ lit "summary" := translated ]}))
                       | None => Ret untranslated
                       end
                   | Returned _ => Ret untranslated
                   | Raised _ => Ret untranslated
                   end)
          | _ => Ret untranslated
          end
      end
  end.

(** [[w.lower() for w in q.split() if len(w) > 3]] *)
Definition keywords_of (q : str) : list str :=
  map lower (List.filter (fun w => (3 <? length w)%nat) (split q)).

(** The filter of the retrieval query. *)
Definition keyword_filter (keywords : list str) : value :=
  match keywords with
  | [] => VDict ∅
  | _ :: _ =>
      VDict {[ lit "$or" :=
        VList (map (fun k =>
          VDict {[ lit "content" :=
            VDict {[ lit "$regex" := VStr k; lit "$options" := VStr (lit "i") ]} ]})
          keywords) ]}
  end.

(** [m.get("content", "")] for each retrieved record. *)
Definition context_snippets (mems : list doc) : list value :=
  map (fun m => default (VStr []) (m !! lit "content")) mems.

(** The items of a [sep.join(...)], which must all be [str]; [None] is the
    [TypeError] raised otherwise. *)
Fixpoint strings (vs : list value) : option (list str) :=
  match vs with
  | [] => Some []
  | VStr s :: rest => cons s <$> strings rest
  | _ :: _ => None
  end.

(** ["\n".join(context_snippets)[:2000]] *)
Definition context_of (mems : list doc) : option str :=
  snippets ← strings (context_snippets mems);
  Some (take 2000 (join [10%N] snippets)).

(** Lines 205-214: the condensation appended to the answer; an exception
    inside the [try] falls back to the whole context. *)
Definition condensed (context : str) : str :=
  let sentences := re_split context in
  let attempt :=
    if decide (2 < length sentences)%nat then
      let mid := (Z.of_nat (length sentences) / 2)%Z in
      first ← index sentences 0;
      middle ← index sentences mid;
      last ← index sentences (-1);
      Some (join (lit " ") [first; middle; last])
    else Some context in
  default context attempt.

Definition no_notes_answer : str :=
  lit "I couldn't find related notes yet. Try saving key facts first, or ask a more specific question.".

(** The answer before any translation. *)
Definition answer_of (context : str) : str :=
  match context with
  | _ :: _ =>
      lit "Based on your saved notes, here's what seems relevant:" ++ [10%N]
      ++ context ++ [10%N; 10%N] ++ lit "In summary: " ++ condensed context
  | [] => no_notes_answer
  end.

(** [POST /api/ask] *)
Definition ask_question (payload : QuestionIn.t) : prog response :=
  let q := strip (QuestionIn.question payload) in
  match q with
  | [] => Ret (HTTPException 400 (lit "Question is required"))
  | _ :: _ =>
      let keywords := keywords_of q in
      GetDocuments (lit "memorynote") (keyword_filter keywords) 20
        (fun found =>
           let mems :=
             match found with
             | Returned docs => docs
             | Raised _ => []
             end in
           match context_of mems with
           | None => Ret (Uncaught (lit "TypeError"))
           | Some context =>
               let answer := answer_of context in
               let untranslated := Ok (VDict {[ lit "answer" := VStr answer ]}) in
               match QuestionIn.target_lang payload with
               | Some (c :: s) =>
                   PostJson TRANSLATE_URL (translation_form answer (c :: s))
                     (fun r =>
                        match r with
                        | Returned (VDict data) =>
                            match data !! lit "translatedText" with
                            | Some translated =>
                                Ret (Ok (VDict {[ lit "answer" := translated ]}))
                            | None => Ret untranslated
                            end
                        | Returned _ => Ret untranslated
                        | Raised _ => Ret untranslated
                        end)
               | _ => Ret untranslated
               end
           end)
  end.

End Handlers.

(** ** The diagnostics endpoint

    [GET /test] reads the module-level store handle [db] (imported from the
    [database] module, [None] when the store was never initialised) and two
    environment variables. *)

Module Database.
(** What [test_database] uses of the handle: the [name] attribute ([None]
    when [hasattr(db, 'name')] is false, [Raised] when reading it raises
    something other than [AttributeError]) and [list_collection_names()]. *)
Record t := Make {
  name : option (outcome value);
  list_collection_names : outcome (list str)
}.
End Database.

(** [os.getenv("DATABASE_URL")] and [os.getenv("DATABASE_NAME")]. *)
Record environ : Type := Environ {
  DATABASE_URL : option str;
  DATABASE_NAME : option str
}.

Section Diagnostics.
Import PyStr.

(** U+2705, U+274C and U+26A0 U+FE0F, the marks of the report strings. *)
Definition check_mark : str := [9989%N].
Definition cross_mark : str := [10060%N].
Definition warning_sign : str := [9888%N; 65039%N].

(** The [response] dict as first built (lines 28-35). *)
Definition initial_report : gmap str value :=
  {[ lit "backend" := VStr (check_mark ++ lit " Running");
     lit "database" := VStr (cross_mark ++ lit " Not Available");
     lit "database_url" := VNone;
     lit "database_name" := VNone;
     lit "connection_status" := VStr (lit "Not Connected");
     lit "collections" := VList [] ]}.

(** The [try] block of lines 36-51, as updates of [response]. *)
Definition probe (db : option Database.t) (response : gmap str value) : gmap str value :=
  match db with
  | Some handle =>
      let response :=
        <[ lit "database" := VStr (check_mark ++ lit " Available") ]> response in
      let response :=
        <[ lit "database_url" := VStr (check_mark ++ lit " Configured") ]> response in
      match Database.name handle with
      | Some (Raised e) =>
          (* the outer [except Exception as e] *)
          <[ lit "database" := VStr (cross_mark ++ lit " Error: " ++ take 50 e) ]> response
      | attribute =>
          let response :=
            <[ lit "database_name" :=
                 match attribute with
                 | Some (Returned name) => name
                 | _ => VStr (check_mark ++ lit " Connected")
                 end ]> response in
          let response :=
            <[ lit "connection_status" := VStr (lit "Connected") ]> response in
          match Database.list_collection_names handle with
          | Returned collections =>
              let response :=
                <[ lit "collections" := VList (map VStr (take 10 collections)) ]> response in
              <[ lit "database" := VStr (check_mark ++ lit " Connected & Working") ]> response
          | Raised e =>
              <[ lit "database" :=
                   VStr (warning_sign ++ lit "  Connected but Error: " ++ take 50 e) ]> response
          end
      end
  | None =>
      <[ lit "database" := VStr (warning_sign ++ lit "  Available but not initialized") ]>
        response
  end.

(** ["<mark> Set" if os.getenv(...) else "<mark> Not Set"] *)
Definition set_or_not (variable : option str) : value :=
  VStr (if truthy variable then check_mark ++ lit " Set" else cross_mark ++ lit " Not Set").

(** The dict returned by [GET /test]. *)
Definition test_report (db : option Database.t) (env : environ) : gmap str value :=
  let response := probe db initial_report in
  let response := <[ lit "database_url" := set_or_not (DATABASE_URL env) ]> response in
  <[ lit "database_name" := set_or_not (DATABASE_NAME env) ]> response.

(** [GET /test] *)
Definition test_database (db : option Database.t) (env : environ) : response :=
  Ok (VDict (test_report db env)).

End Diagnostics.

(** ** Sample requests and worlds *)

Module Samples.

Definition libre_url : str := lit "https://libretranslate.de/detect".
Definition translate_url : str := lit "https://libretranslate.de/translate".

(** Lower-casing of the ASCII letters, enough for the samples. *)
Definition ascii_lower (s : str) : str :=
  map (fun c => if ((65 <=? c) && (c <=? 90))%N then (c + 32)%N else c) s.

Definition plain_repr (v : value) : str := lit "<value>".

(** Every outside call raises. *)
Definition offline : world :=
  World (fun _ _ _ => Raised (lit "Database not available"))
        (fun _ _ => Raised (lit "Connection refused")).

(** The services answer, but with an error body instead of a result. *)
Definition error_body : value :=
  VDict {[ lit "error" := VStr (lit "Too many requests") ]}.

Definition note_a : doc :=
  {[ lit "_id" := VObjectId (lit "65f1a2b3c4d5e6f708091a2b");
     lit "content" := VStr (lit "Plants turn light into sugar.");
     lit "tags" := VList [VStr (lit "biology")] ]}.

Definition note_b : doc :=
  {[ lit "_id" := VObjectId (lit "65f1a2b3c4d5e6f708091a2c");
     lit "tags" := VList [] ]}.

(** The store returns two notes for any query; the services return
    [error_body]. *)
Definition two_notes : world :=
  World (fun _ _ _ => Returned [note_a; note_b])
        (fun _ _ => Returned error_body).

Definition cat_text : str :=
  lit "A cat sat. It slept. Then it woke. Finally it ran away.".

End Samples.

(** ** Whitespace-separated words

    What "the whitespace-separated tokens of a text" are, said without
    [split]: the text is a run of whitespace, then a word (a non-empty run
    without whitespace that reaches up to the next whitespace character or
    the end of the text), and so on, ending in a run of whitespace; the runs
    before the first and after the last word may be empty. *)

Module Tokens.
Import PyStr.

Inductive words_of : list str -> str -> Prop :=
  | words_none gap :
      forallb isspace gap = true -> words_of [] gap
  | words_more gap word words text :
      forallb isspace gap = true ->
      word <> [] ->
      forallb (fun c => negb (isspace c)) word = true ->
      match text with
      | c :: _ => isspace c = true
      | [] => True
      end ->
      words_of words text ->
      words_of (word :: words) (gap ++ word ++ text).

(** Every character is below U+0080. *)
Definition is_ascii (s : str) : Prop := Forall (fun c => (c < 128)%N) s.

(** What [str.lower] does to an ASCII string: [A]-[Z] become [a]-[z]. *)
Definition ascii_lowercase (s : str) : str :=
  map (fun c => if ((65 <=? c) && (c <=? 90))%N then (c + 32)%N else c) s.

(** One clause of the retrieval filter:
    [{"content": {"$regex": k, "$options": "i"}}]. *)
Definition regex_clause (k : str) : value :=
  VDict {[ lit "content" :=
    VDict {[ lit "$regex" := VStr k; lit "$options" := VStr (lit "i") ]} ]}.

End Tokens.

(** ** More samples: a translating service, an ill-typed note, store handles *)

Module MoreSamples.

Definition spanish : value :=
  VDict {[ lit "translatedText" := VStr (lit "Un gato se sento.") ]}.

(** The store returns [Samples.note_a]; the translation service answers
    with [spanish]. *)
Definition translating : world :=
  World (fun _ _ _ => Returned [Samples.note_a])
        (fun _ _ => Returned spanish).

(** A record whose [content] is a number. *)
Definition ill_typed_note : doc :=
  {[ lit "_id" := VObjectId (lit "65f1a2b3c4d5e6f708091a2d");
     lit "content" := VInt 7 ]}.

Definition ill_typed_store : world :=
  World (fun _ _ _ => Returned [Samples.note_a; ill_typed_note])
        (fun _ _ => Returned spanish).

Definition three_sentences : str := lit "Plants need light.  They make sugar. Done".

(** A store with twelve collections. *)
Definition healthy : Database.t :=
  Database.Make (Some (Returned (VStr (lit "study"))))
    (Returned (map (fun c => [c]) [97; 98; 99; 100; 101; 102; 103; 104; 105; 106; 107; 108]%N)).

(** A store whose listing times out. *)
Definition unreachable : Database.t :=
  Database.Make None (Raised (lit "timed out")).

Definition configured : environ :=
  Environ (Some (lit "mongodb://localhost:27017")) (Some []).

End MoreSamples.

(** ** Facts about the string functions *)

Section StringFacts.
Import PyStr.

Lemma terminator_not_space c : is_terminator c = true -> isspace c = false.
Proof.
  unfold is_terminator. intros H.
  apply orb_prop in H as [H | H]; [apply orb_prop in H as [H | H] |];
    apply N.eqb_eq in H; subst c; reflexivity.
Qed.

Lemma lstrip_prefix s :
  exists ws, s = ws ++ lstrip s /\ forallb isspace ws = true.
Proof.
  induction s as [| c s [ws [E A]]]; simpl.
  - exists []. split; reflexivity.
  - destruct (isspace c) eqn:Hc.
    + exists (c :: ws). simpl. rewrite Hc, A. split; [congruence | reflexivity].
    + exists []. split; reflexivity.
Qed.

Lemma rstrip_suffix s :
  exists ws, s = rstrip s ++ ws /\ forallb isspace ws = true.
Proof.
  destruct (lstrip_prefix (rev s)) as [ws [E A]].
  exists (rev ws). split.
  - unfold rstrip. rewrite <- rev_app_distr, <- E. symmetry. apply rev_involutive.
  - rewrite forallb_forall in *. intros c Hc. apply A. now apply in_rev.
Qed.

Lemma split_from_spaces ws word :
  forallb isspace ws = true -> split_from word ws = split_from word [].
Proof.
  revert word. induction ws as [| c ws IH]; intros word A; [reflexivity |].
  simpl in A. apply andb_prop in A as [Hc A]. simpl. rewrite Hc.
  destruct word; rewrite (IH [] A); reflexivity.
Qed.

Lemma split_from_app_spaces s ws word :
  forallb isspace ws = true -> split_from word (s ++ ws) = split_from word s.
Proof.
  intros A. revert word. induction s as [| c s IH]; intros word.
  - now apply split_from_spaces.
  - simpl. destruct (isspace c); [destruct word |]; now rewrite IH.
Qed.

Lemma split_lstrip s : split (lstrip s) = split s.
Proof.
  unfold split. induction s as [| c s IH]; [reflexivity |].
  simpl. destruct (isspace c) eqn:Hc; [exact IH |].
  simpl. now rewrite Hc.
Qed.

Lemma split_rstrip s : split (rstrip s) = split s.
Proof.
  destruct (rstrip_suffix s) as [ws [E A]].
  rewrite E at 2. unfold split. symmetry. now apply split_from_app_spaces.
Qed.

(** Splitting on whitespace does not see surrounding whitespace. *)
Lemma split_strip s : split (strip s) = split s.
Proof. unfold strip. now rewrite split_rstrip, split_lstrip. Qed.

Lemma split_from_word word s acc :
  forallb (fun c => negb (isspace c)) word = true ->
  split_from acc (word ++ s) = split_from (rev word ++ acc) s.
Proof.
  revert acc. induction word as [| c word IH]; intros acc A; [reflexivity |].
  simpl in A. apply andb_prop in A as [Hc A]. apply negb_true_iff in Hc.
  simpl. rewrite Hc, IH by exact A. now rewrite <- app_assoc.
Qed.

Lemma split_leading_spaces gap s :
  forallb isspace gap = true -> split (gap ++ s) = split s.
Proof.
  intros A. unfold split. induction gap as [| c gap IH]; [reflexivity |].
  simpl in A. apply andb_prop in A as [Hc A]. simpl. rewrite Hc. now apply IH.
Qed.

(** A token is a non-empty run without whitespace, closed by whitespace... *)
Lemma split_token word gap rest :
  word <> [] -> forallb (fun c => negb (isspace c)) word = true ->
  gap <> [] -> forallb isspace gap = true ->
  split (word ++ gap ++ rest) = word :: split rest.
Proof.
  intros Hword A Hgap B. unfold split at 1.
  rewrite split_from_word by exact A. rewrite app_nil_r.
  destruct gap as [| c gap]; [congruence |].
  simpl in B. apply andb_prop in B as [Hc B]. simpl. rewrite Hc.
  destruct (rev word) eqn:Hr.
  - apply (f_equal (@rev N)) in Hr. rewrite rev_involutive in Hr. now destruct Hword.
  - rewrite <- Hr, rev_involutive. f_equal. now apply split_leading_spaces.
Qed.

(** ... or by the end of the string. *)
Lemma split_last_token word :
  word <> [] -> forallb (fun c => negb (isspace c)) word = true ->
  split word = [word].
Proof.
  intros Hword A. unfold split.
  rewrite <- (app_nil_r word) at 1. rewrite split_from_word by exact A.
  rewrite app_nil_r. simpl.
  destruct (rev word) eqn:Hr.
  - apply (f_equal (@rev N)) in Hr. rewrite rev_involutive in Hr. now destruct Hword.
  - now rewrite <- Hr, rev_involutive.
Qed.

Lemma index_nonneg {A} (l : list A) (i : nat) :
  (i < length l)%nat -> index l (Z.of_nat i) = l !! i.
Proof.
  intros H. unfold index.
  destruct (decide _) as [_ | n]; [now rewrite Nat2Z.id | lia].
Qed.

Lemma index_last {A} (l : list A) :
  l <> [] -> index l (-1) = l !! (length l - 1)%nat.
Proof.
  intros H. unfold index.
  assert (0 < length l)%nat by (destruct l; [congruence | simpl; lia]).
  destruct (decide _) as [? | _]; [lia |].
  destruct (decide _) as [_ | n]; [f_equal; lia | lia].
Qed.

Lemma join_three sep a b c : join sep [a; b; c] = a ++ sep ++ b ++ sep ++ c.
Proof. reflexivity. Qed.

Lemma length_take_le {A} (l : list A) n : (length (take n l) <= n)%nat.
Proof. rewrite length_take. lia. Qed.

End StringFacts.

(** ** Facts about the sentence splitter *)

Section SentenceFacts.
Import PyStr Sentences.

Lemma split_scan_not_nil st piece s : split_scan st piece s <> [].
Proof.
  revert st piece. induction s as [| c s IH]; intros st piece; simpl.
  - discriminate.
  - destruct st; try destruct (isspace c); try apply IH; discriminate.
Qed.

Lemma re_split_not_nil text : re_split text <> [].
Proof. apply split_scan_not_nil. Qed.

Lemma split_scan_char st piece c s :
  isspace c = false -> st <> InGap ->
  split_scan st piece (c :: s) = split_scan (after c) (c :: piece) s.
Proof. intros Hc Hst. destruct st; simpl; rewrite ?Hc; congruence. Qed.

(** Without a boundary ahead the scan returns one piece. *)
Lemma split_scan_no_boundary s : forall st piece,
  st <> InGap ->
  (st = AfterTerminator -> starts_with_space s = false) ->
  has_boundary s = false ->
  split_scan st piece s = [rev piece ++ s].
Proof.
  induction s as [| c s IH]; intros st piece Hgap Hst Hb.
  - simpl. now rewrite app_nil_r.
  - assert (Hs : has_boundary s = false).
    { destruct s; [reflexivity |]. simpl in Hb.
      now apply orb_false_elim in Hb as [_ Hb]. }
    assert (Hnext : after c = AfterTerminator -> starts_with_space s = false).
    { unfold after. destruct (is_terminator c) eqn:Hc; [| discriminate].
      intros _. destruct s; [reflexivity |]. simpl in Hb |- *.
      apply orb_false_elim in Hb as [Hb _]. rewrite Hc in Hb. exact Hb. }
    assert (Hnogap : after c <> InGap).
    { unfold after. destruct (is_terminator c); discriminate. }
    assert (E : rev (c :: piece) ++ s = rev piece ++ c :: s).
    { simpl. now rewrite <- app_assoc. }
    destruct st; simpl.
    + specialize (Hst eq_refl). simpl in Hst. rewrite Hst.
      rewrite IH by assumption. now rewrite E.
    + rewrite IH by assumption. now rewrite E.
    + congruence.
Qed.

(** A text without a sentence boundary is a single sentence. *)
Lemma re_split_no_boundary text :
  has_boundary text = false -> re_split text = [text].
Proof.
  intros H. unfold re_split.
  rewrite split_scan_no_boundary; [reflexivity | discriminate | discriminate | exact H].
Qed.

Lemma split_scan_gap ws rest :
  forallb isspace ws = true -> starts_with_space rest = false ->
  split_scan InGap [] (ws ++ rest) = re_split rest.
Proof.
  intros A Hrest. induction ws as [| c ws IH]; simpl.
  - destruct rest as [| c rest]; [reflexivity |].
    simpl in Hrest. unfold re_split. simpl. now rewrite Hrest.
  - simpl in A. apply andb_prop in A as [Hc A]. rewrite Hc. now apply IH.
Qed.

(** The leftmost boundary ends the first sentence; the whole run of
    whitespace after it is dropped and the rest is split on its own. *)
Lemma split_scan_leftmost head : forall st piece p ws rest,
  st <> InGap ->
  (st = AfterTerminator -> starts_with_space (head ++ [p]) = false) ->
  has_boundary (head ++ [p]) = false ->
  is_terminator p = true ->
  ws <> [] -> forallb isspace ws = true ->
  starts_with_space rest = false ->
  split_scan st piece (head ++ p :: ws ++ rest)
  = (rev piece ++ head ++ [p]) :: re_split rest.
Proof.
  induction head as [| c head IH]; intros st piece p ws rest Hgap Hst Hb Hp Hws A Hrest.
  - destruct ws as [| w ws]; [congruence |].
    simpl in A. apply andb_prop in A as [Hw A].
    cbn [app]. rewrite split_scan_char by (auto using terminator_not_space).
    unfold after. rewrite Hp. cbn [split_scan]. rewrite Hw.
    f_equal. now apply split_scan_gap.
  - assert (Hs : has_boundary (head ++ [p]) = false).
    { simpl in Hb. destruct (head ++ [p]); [reflexivity |].
      now apply orb_false_elim in Hb as [_ Hb]. }
    assert (Hnext : after c = AfterTerminator -> starts_with_space (head ++ [p]) = false).
    { unfold after. destruct (is_terminator c) eqn:Hc; [| discriminate].
      intros _. simpl in Hb. destruct (head ++ [p]); [reflexivity |].
      simpl. apply orb_false_elim in Hb as [Hb _]. rewrite Hc in Hb. exact Hb. }
    assert (Hnogap : after c <> InGap).
    { unfold after. destruct (is_terminator c); discriminate. }
    assert (E : rev (c :: piece) ++ head ++ [p] = rev piece ++ (c :: head) ++ [p]).
    { simpl. now rewrite <- app_assoc. }
    destruct st; simpl.
    + specialize (Hst eq_refl). simpl in Hst. rewrite Hst.
      rewrite IH by assumption. now rewrite E.
    + rewrite IH by assumption. now rewrite E.
    + congruence.
Qed.

Lemma re_split_leftmost head p ws rest :
  has_boundary (head ++ [p]) = false ->
  is_terminator p = true ->
  ws <> [] -> forallb isspace ws = true ->
  starts_with_space rest = false ->
  re_split (head ++ p :: ws ++ rest) = (head ++ [p]) :: re_split rest.
Proof.
  intros. unfold re_split at 1.
  rewrite split_scan_leftmost; try assumption; [reflexivity | discriminate..].
Qed.

Lemma split_scan_separated s :
  (forall st piece, st <> InGap ->
     separated (split_scan st piece s) (rev piece ++ s)) /\
  (exists gap rest, s = gap ++ rest /\ forallb isspace gap = true /\
     separated (split_scan InGap [] s) rest).
Proof.
  induction s as [| c s [IHscan (gap & rest & Es & Hgap & IHgap)]].
  - split.
    + intros st piece _. rewrite app_nil_r. apply separated_last.
    + exists [], []. repeat split. apply separated_last.
  - assert (Hafter : after c <> InGap).
    { unfold after. destruct (is_terminator c); discriminate. }
    assert (Hchar : forall piece,
              separated (split_scan (after c) (c :: piece) s) (rev piece ++ c :: s)).
    { intros piece. specialize (IHscan (after c) (c :: piece) Hafter).
      simpl in IHscan. now rewrite <- app_assoc in IHscan. }
    split.
    + intros st piece Hst. destruct st; [| apply Hchar | congruence].
      cbn [split_scan]. destruct (isspace c) eqn:Hc; [| apply Hchar].
      replace (rev piece ++ c :: s) with (rev piece ++ (c :: gap) ++ rest)
        by (simpl; now rewrite <- Es).
      apply separated_more; [discriminate | | exact IHgap].
      simpl. now rewrite Hc, Hgap.
    + cbn [split_scan]. destruct (isspace c) eqn:Hc.
      * exists (c :: gap), rest. split; [simpl; now rewrite <- Es |].
        split; [| exact IHgap]. simpl. now rewrite Hc, Hgap.
      * exists [], (c :: s). repeat split. apply (Hchar []).
Qed.

Lemma count_boundaries_cons c s :
  count_boundaries (c :: s)
  = ((if is_terminator c && starts_with_space s then 1 else 0)
     + count_boundaries s)%nat.
Proof. destruct s; [| reflexivity]. simpl. now rewrite andb_false_r. Qed.

Lemma split_scan_length s : forall st piece,
  length (split_scan st piece s)
  = S ((if match st with AfterTerminator => starts_with_space s | _ => false end
        then 1 else 0) + count_boundaries s).
Proof.
  induction s as [| c s IH]; intros st piece; [now destruct st |].
  assert (Hchar : forall piece',
            length (split_scan (after c) piece' s) = S (count_boundaries (c :: s))).
  { intros piece'. rewrite IH, count_boundaries_cons. unfold after.
    destruct (is_terminator c); reflexivity. }
  assert (Hspace : isspace c = true -> count_boundaries (c :: s) = count_boundaries s).
  { intros Hc. rewrite count_boundaries_cons.
    destruct (is_terminator c) eqn:Ht; [| reflexivity].
    apply terminator_not_space in Ht. congruence. }
  destruct st; cbn [split_scan starts_with_space].
  - destruct (isspace c) eqn:Hc; [| now rewrite Hchar].
    cbn [length]. now rewrite IH, Hspace.
  - now rewrite Hchar.
  - destruct (isspace c) eqn:Hc; [| now rewrite Hchar].
    now rewrite IH, Hspace.
Qed.

(** There is one more sentence than there are boundaries: the text is cut
    at every terminator that is followed by whitespace. *)
Lemma re_split_length text :
  length (re_split text) = S (count_boundaries text).
Proof. apply split_scan_length. Qed.

(** The sentences are the text with the gaps between them taken out. *)
Lemma re_split_separated text : separated (re_split text) text.
Proof. apply (proj1 (split_scan_separated text) AfterOther []). discriminate. Qed.

Lemma split_scan_keeps_terminators s : forall st piece,
  (st = AfterTerminator -> ends_with_terminator (rev piece)) ->
  forall i sentence,
    (S i < length (split_scan st piece s))%nat ->
    split_scan st piece s !! i = Some sentence ->
    ends_with_terminator sentence.
Proof.
  induction s as [| c s IH]; intros st piece Hst i sentence Hi Hs.
  - simpl in Hi. lia.
  - assert (Hchar : forall piece',
              after c = AfterTerminator -> ends_with_terminator (rev (c :: piece'))).
    { intros piece'. unfold after. destruct (is_terminator c) eqn:Hc; [| discriminate].
      intros _. exists (rev piece'), c. split; [reflexivity | exact Hc]. }
    destruct st; cbn [split_scan] in Hi, Hs.
    + destruct (isspace c).
      * destruct i as [| i].
        -- injection Hs as <-. now apply Hst.
        -- simpl in Hi. apply (IH InGap [] ltac:(discriminate) i); [lia | exact Hs].
      * apply (IH (after c) (c :: piece) (Hchar piece) i); assumption.
    + apply (IH (after c) (c :: piece) (Hchar piece) i); assumption.
    + destruct (isspace c).
      * apply (IH InGap [] ltac:(discriminate) i); assumption.
      * apply (IH (after c) [c] (Hchar []) i); assumption.
Qed.

(** Every sentence but the last keeps its closing punctuation. *)
Lemma re_split_keeps_terminators text i sentence :
  (S i < length (re_split text))%nat ->
  re_split text !! i = Some sentence ->
  ends_with_terminator sentence.
Proof. apply split_scan_keeps_terminators. discriminate. Qed.

End SentenceFacts.

(** ** The summarizer *)

Section SummarizeFacts.
Import PyStr Sentences.

Variable TRANSLATE_URL : str.

Lemma extractive_summary_short text :
  (length (re_split text) <= 3)%nat -> extractive_summary text = Some text.
Proof.
  intros H. unfold extractive_summary.
  destruct (decide _); [reflexivity | contradiction].
Qed.

Lemma extractive_summary_long text :
  let sentences := re_split text in
  let n := length sentences in
  (3 < n)%nat ->
  exists first middle last,
    sentences !! 0%nat = Some first /\
    sentences !! (n / 2)%nat = Some middle /\
    sentences !! (n - 1)%nat = Some last /\
    extractive_summary text
    = Some (first ++ lit " " ++ middle ++ lit " " ++ last).
Proof.
  intros sentences n Hn.
  assert (Hmid : (n / 2 < n)%nat) by (apply Nat.div_lt; lia).
  destruct (lookup_lt_is_Some_2 sentences 0%nat) as [first H0]; [fold n; lia |].
  destruct (lookup_lt_is_Some_2 sentences (n / 2)%nat) as [middle H1]; [exact Hmid |].
  destruct (lookup_lt_is_Some_2 sentences (n - 1)%nat) as [last H2]; [fold n; lia |].
  exists first, middle, last. repeat split; try assumption.
  unfold extractive_summary. fold sentences. fold n.
  destruct (decide _) as [Hle | _]; [lia |].
  change 0%Z with (Z.of_nat 0).
  rewrite index_nonneg by (fold n; lia). rewrite H0. simpl.
  replace (Z.of_nat n / 2)%Z with (Z.of_nat (n / 2)) by (now rewrite Nat2Z.inj_div).
  rewrite index_nonneg by exact Hmid. rewrite H1. simpl.
  rewrite index_last by apply re_split_not_nil. fold n. rewrite H2. simpl.
  reflexivity.
Qed.

(** The extractive step never fails. *)
Lemma extractive_summary_total text :
  exists summary, extractive_summary text = Some summary.
Proof.
  destruct (le_lt_dec (length (re_split text)) 3) as [H | H].
  - exists text. now apply extractive_summary_short.
  - destruct (extractive_summary_long text H) as (a & b & c & _ & _ & _ & E).
    eexists. exact E.
Qed.

(** What a run of [summarize] does once the extractive summary is known. *)
Lemma summarize_run w payload summary :
  strip (SummarizeIn.text payload) <> [] ->
  extractive_summary (strip (SummarizeIn.text payload)) = Some summary ->
  run w (summarize TRANSLATE_URL payload)
  = match SummarizeIn.target_lang payload with
    | Some (c :: s) =>
        ([Posted TRANSLATE_URL (translation_form summary (c :: s))],
         match http w TRANSLATE_URL (translation_form summary (c :: s)) with
         | Returned (VDict data) =>
             Ok (VDict {[ lit "summary" :=
               default (VStr summary) (data !! lit "translatedText") ]})
         | _ => Ok (VDict {[ lit "summary" := VStr summary ]})
         end)
    | _ => ([], Ok (VDict {[ lit "summary" := VStr summary ]}))
    end.
Proof.
  intros Hne Hsum. unfold summarize.
  destruct (strip (SummarizeIn.text payload)) as [| c0 s0] eqn:Ht; [congruence |].
  rewrite Hsum.
  destruct (SummarizeIn.target_lang payload) as [[| c s] |]; try reflexivity.
  simpl.
  destruct (http w TRANSLATE_URL _) as [m | []]; try reflexivity.
  destruct (d !! lit "translatedText"); reflexivity.
Qed.

Lemma summarize_untranslated w payload summary :
  strip (SummarizeIn.text payload) <> [] ->
  extractive_summary (strip (SummarizeIn.text payload)) = Some summary ->
  truthy (SummarizeIn.target_lang payload) = false ->
  run w (summarize TRANSLATE_URL payload)
  = ([], Ok (VDict {[ lit "summary" := VStr summary ]})).
Proof.
  intros Hne Hsum Hlang. rewrite (summarize_run w payload summary Hne Hsum).
  destruct (SummarizeIn.target_lang payload) as [[| c s] |];
    [reflexivity | discriminate | reflexivity].
Qed.

Lemma summarize_posts_summary w payload summary lang :
  strip (SummarizeIn.text payload) <> [] ->
  extractive_summary (strip (SummarizeIn.text payload)) = Some summary ->
  SummarizeIn.target_lang payload = Some lang -> lang <> [] ->
  trace w (summarize TRANSLATE_URL payload)
  = [Posted TRANSLATE_URL (translation_form summary lang)].
Proof.
  intros Hne Hsum Hlang Hl. unfold trace.
  rewrite (summarize_run w payload summary Hne Hsum), Hlang.
  destruct lang; [congruence | reflexivity].
Qed.

Lemma more_than_three_not_empty text :
  (3 < length (re_split text))%nat -> text <> [].
Proof. intros H ->. simpl in H. lia. Qed.

(** C1. The sentences of the stripped text are its pieces between the runs
    of whitespace that follow a [.], [!] or [?] (one cut per such place),
    each but the last keeping that punctuation.  When there are [n > 3] of
    them, the summary computed
    by [summarize] before any translation is sentence 0, sentence [n / 2]
    and sentence [n - 1], joined by single spaces: it is the summary
    returned when no target language is given, and the text posted for
    translation when one is. *)
Theorem summarize_first_middle_last (payload : SummarizeIn.t) :
  let text := strip (SummarizeIn.text payload) in
  let sentences := re_split text in
  let n := length sentences in
  (3 < n)%nat ->
  n = S (count_boundaries text) /\
  separated sentences text /\
  (forall i sentence, (S i < n)%nat -> sentences !! i = Some sentence ->
     ends_with_terminator sentence) /\
  exists first middle last,
    sentences !! 0%nat = Some first /\
    sentences !! (n / 2)%nat = Some middle /\
    sentences !! (n - 1)%nat = Some last /\
    let summary := first ++ lit " " ++ middle ++ lit " " ++ last in
    extractive_summary text = Some summary /\
    (forall w, truthy (SummarizeIn.target_lang payload) = false ->
       run w (summarize TRANSLATE_URL payload)
       = ([], Ok (VDict {[ lit "summary" := VStr summary ]}))) /\
    (forall w lang, SummarizeIn.target_lang payload = Some lang -> lang <> [] ->
       trace w (summarize TRANSLATE_URL payload)
       = [Posted TRANSLATE_URL (translation_form summary lang)]).
Proof.
  intros text sentences n Hn.
  destruct (extractive_summary_long text Hn) as (a & b & c & H0 & H1 & H2 & E).
  pose proof (more_than_three_not_empty text Hn) as Hne.
  split; [apply re_split_length |].
  split; [apply re_split_separated |].
  split; [intros i sentence; apply re_split_keeps_terminators |].
  exists a, b, c. repeat split; try assumption.
  - intros w Hlang. now apply summarize_untranslated.
  - intros w lang Hlang Hl. now apply summarize_posts_summary.
Qed.

(** C2. When the stripped text splits into at most three sentences, which
    includes every text without a sentence boundary, the summary computed
    by [summarize] before any translation is the stripped text itself. *)
Theorem summarize_short_text_unchanged (payload : SummarizeIn.t) :
  let text := strip (SummarizeIn.text payload) in
  (length (re_split text) <= 3)%nat \/ has_boundary text = false ->
  (length (re_split text) <= 3)%nat /\
  extractive_summary text = Some text /\
  (forall w, text <> [] -> truthy (SummarizeIn.target_lang payload) = false ->
     run w (summarize TRANSLATE_URL payload)
     = ([], Ok (VDict {[ lit "summary" := VStr text ]}))) /\
  (forall w lang, text <> [] ->
     SummarizeIn.target_lang payload = Some lang -> lang <> [] ->
     trace w (summarize TRANSLATE_URL payload)
     = [Posted TRANSLATE_URL (translation_form text lang)]).
Proof.
  intros text H.
  assert (Hle : (length (re_split text) <= 3)%nat).
  { destruct H as [H | H]; [exact H |].
    rewrite (re_split_no_boundary text H). simpl. lia. }
  pose proof (extractive_summary_short text Hle) as E.
  repeat split; try assumption.
  - intros w Hne Hlang. now apply summarize_untranslated.
  - intros w lang Hne Hlang Hl. now apply summarize_posts_summary.
Qed.

End SummarizeFacts.

(** ** The translation gateway *)

Section GatewayFacts.
Import PyStr Sentences.

Variables LIBRE_URL TRANSLATE_URL : str.

Lemma translate_text_run w payload :
  let target := or_else (TextIn.target_lang payload) (lit "en") in
  let form := translation_form (TextIn.text payload) target in
  run w (translate_text TRANSLATE_URL payload)
  = ([Posted TRANSLATE_URL form],
     match http w TRANSLATE_URL form with
     | Raised message => HTTPException 500 message
     | Returned (VDict data) =>
         Ok (VDict {[ lit "translated" :=
                        default (VStr (TextIn.text payload))
                                (data !! lit "translatedText");
                      lit "target" := VStr target ]})
     | Returned _ =>
         Ok (VDict {[ lit "translated" := VStr (TextIn.text payload);
                      lit "target" := VStr target ]})
     end).
Proof.
  intros target form. unfold translate_text. fold target. fold form. simpl.
  destruct (http w TRANSLATE_URL form) as [m | []]; try reflexivity.
  destruct (d !! lit "translatedText"); reflexivity.
Qed.

(** C3. With a translation service whose every call fails,
    [translate_text] answers 500 with the failure's message as detail,
    while [summarize] on a text that is not empty after stripping still
    answers 200 with the untranslated summary, whatever target language
    is set. *)
Theorem translation_failure_policy (w : world) (failure : str -> value -> str) :
  (forall url data, http w url data = Raised (failure url data)) ->
  (forall payload : TextIn.t,
     result w (translate_text TRANSLATE_URL payload)
     = HTTPException 500
         (failure TRANSLATE_URL
            (translation_form (TextIn.text payload)
               (or_else (TextIn.target_lang payload) (lit "en"))))) /\
  (forall payload : SummarizeIn.t,
     strip (SummarizeIn.text payload) <> [] ->
     exists summary,
       extractive_summary (strip (SummarizeIn.text payload)) = Some summary /\
       result w (summarize TRANSLATE_URL payload)
       = Ok (VDict {[ lit "summary" := VStr summary ]})).
Proof.
  intros Hdown. split.
  - intros payload. unfold result. rewrite translate_text_run. simpl.
    now rewrite Hdown.
  - intros payload Hne.
    destruct (extractive_summary_total (strip (SummarizeIn.text payload)))
      as [summary E].
    exists summary. split; [exact E |].
    unfold result. rewrite (summarize_run TRANSLATE_URL w payload summary Hne E).
    destruct (SummarizeIn.target_lang payload) as [[| c s] |]; try reflexivity.
    simpl. now rewrite Hdown.
Qed.

(** C9. When the translation service answers with a JSON body that is not
    an object holding ["translatedText"], [translate_text] answers 200 with
    the input text itself as [translated]. *)
Theorem translate_unrecognised_body (w : world) (payload : TextIn.t) (body : value) :
  let target := or_else (TextIn.target_lang payload) (lit "en") in
  http w TRANSLATE_URL (translation_form (TextIn.text payload) target)
  = Returned body ->
  ~ (exists data, body = VDict data /\ is_Some (data !! lit "translatedText")) ->
  result w (translate_text TRANSLATE_URL payload)
  = Ok (VDict {[ lit "translated" := VStr (TextIn.text payload);
                 lit "target" := VStr target ]}).
Proof.
  intros target Hbody Hnot. unfold result. rewrite translate_text_run. simpl.
  fold target. rewrite Hbody.
  destruct body; try reflexivity.
  destruct (d !! lit "translatedText") as [t |] eqn:Hd; [| reflexivity].
  exfalso. apply Hnot. exists d. split; [reflexivity |]. rewrite Hd. eauto.
Qed.

(** C8. [detect_language] always answers 200 with a [language] and a
    [confidence]; when the detection call raises (network failure, body
    that is not JSON) or its body is not a list, is the empty list, or
    starts with something that is not an object, the answer is
    [{language: auto, confidence: 0}].  Otherwise the two fields are read
    from the first item of the list, with [auto] and [0] as defaults. *)
Theorem detect_always_answers (w : world) (payload : TextIn.t) :
  let reply := http w LIBRE_URL (VDict {[ lit "q" := VStr (TextIn.text payload) ]}) in
  (exists language confidence,
     result w (detect_language LIBRE_URL payload)
     = Ok (VDict {[ lit "language" := language; lit "confidence" := confidence ]})) /\
  ((exists message, reply = Raised message)
   \/ (exists body, reply = Returned body /\ forall items, body <> VList items)
   \/ reply = Returned (VList [])
   \/ (exists first rest, reply = Returned (VList (first :: rest))
                          /\ forall d, first <> VDict d) ->
   result w (detect_language LIBRE_URL payload)
   = Ok (VDict {[ lit "language" := VStr (lit "auto"); lit "confidence" := VInt 0 ]})) /\
  (forall first rest, reply = Returned (VList (VDict first :: rest)) ->
   result w (detect_language LIBRE_URL payload)
   = Ok (VDict {[ lit "language" := default (VStr (lit "auto")) (first !! lit "language");
                  lit "confidence" := default (VInt 0) (first !! lit "confidence") ]})).
Proof.
  intros reply. unfold result, detect_language. simpl. fold reply.
  split; [| split]; [| | now intros first rest ->].
  - destruct reply as [m | body]; [| destruct body as [| | | | | | [| first rest] |]];
      try (do 2 eexists; reflexivity).
    destruct first; do 2 eexists; reflexivity.
  - intros [[m ->] | [(body & -> & Hb) | [-> | (first & rest & -> & Hf)]]];
      try reflexivity.
    + destruct body as [| | | | | | items |]; try reflexivity.
      now destruct (Hb items).
    + destruct first; try reflexivity. now destruct (Hf d).
Qed.

End GatewayFacts.

(** ** The listings *)

Section ListingFacts.

Variable repr : value -> str.

Lemma expose_id_hides_native (d : gmap (list N) value) :
  expose_id repr d !! lit "_id" = None.
Proof.
  unfold expose_id. destruct (d !! lit "_id") as [oid |] eqn:Hd; [| exact Hd].
  rewrite lookup_insert_ne by (vm_compute; discriminate).
  apply lookup_delete_eq.
Qed.

Lemma expose_id_string (d : gmap (list N) value) oid :
  d !! lit "_id" = Some oid ->
  expose_id repr d !! lit "id" = Some (VStr (str_of repr oid)).
Proof.
  intros Hd. unfold expose_id. rewrite Hd. apply lookup_insert_eq.
Qed.

Lemma expose_id_keeps (d : gmap (list N) value) key :
  key <> lit "_id" -> key <> lit "id" ->
  expose_id repr d !! key = d !! key.
Proof.
  intros H1 H2. unfold expose_id. destruct (d !! lit "_id"); [| reflexivity].
  rewrite lookup_insert_ne by congruence. now apply lookup_delete_ne.
Qed.

Lemma list_memory_run w tag limit :
  run w (list_memory repr tag limit)
  = ([Queried (lit "memorynote") (memory_filter tag) limit],
     match store w (lit "memorynote") (memory_filter tag) limit with
     | Returned docs => Ok (items (map (expose_id repr) docs))
     | Raised message => HTTPException 500 message
     end).
Proof.
  unfold list_memory. simpl.
  destruct (store w _ (memory_filter tag) limit); reflexivity.
Qed.

Lemma get_conversation_run w session_id limit :
  run w (get_conversation repr session_id limit)
  = ([Queried (lit "conversationturn") (conversation_filter session_id) limit],
     match store w (lit "conversationturn") (conversation_filter session_id) limit with
     | Returned docs => Ok (items (map (expose_id repr) docs))
     | Raised message => HTTPException 500 message
     end).
Proof.
  unfold get_conversation. simpl.
  destruct (store w _ (conversation_filter session_id) limit); reflexivity.
Qed.

(** C6. The records returned by [list_memory] and [get_conversation] are
    the stored records passed through [expose_id]; such a record has no
    ["_id"] key, and when the stored record had an ["_id"], its ["id"] is
    the string [str(_id)], never the store-native value. *)
Theorem listed_records_expose_string_id (w : world) (limit : Z) (docs : list (gmap (list N) value)) :
  (forall tag,
     store w (lit "memorynote") (memory_filter tag) limit = Returned docs ->
     result w (list_memory repr tag limit)
     = Ok (VDict {[ lit "items" :=
         VList (map (fun d => VDict (expose_id repr d)) docs) ]})) /\
  (forall session_id,
     store w (lit "conversationturn") (conversation_filter session_id) limit
     = Returned docs ->
     result w (get_conversation repr session_id limit)
     = Ok (VDict {[ lit "items" :=
         VList (map (fun d => VDict (expose_id repr d)) docs) ]})) /\
  (forall d : gmap (list N) value,
     expose_id repr d !! lit "_id" = None /\
     forall oid, d !! lit "_id" = Some oid ->
       expose_id repr d !! lit "id" = Some (VStr (str_of repr oid)) /\
       forall hex, expose_id repr d !! lit "id" <> Some (VObjectId hex)).
Proof.
  split; [| split].
  - intros tag Hdocs. unfold result. rewrite list_memory_run. simpl.
    rewrite Hdocs. unfold items. now rewrite map_map.
  - intros session_id Hdocs. unfold result. rewrite get_conversation_run. simpl.
    rewrite Hdocs. unfold items. now rewrite map_map.
  - intros d. split; [apply expose_id_hides_native |].
    intros oid Hd. rewrite (expose_id_string d oid Hd).
    split; [reflexivity | discriminate].
Qed.

(** C10. An empty [tag] or [session_id] is treated as an absent one: the
    filter is the empty dict, so the listing queries its collection
    unfiltered. *)
Theorem empty_query_parameter_is_absent (w : world) (limit : Z) :
  list_memory repr (Some []) limit = list_memory repr None limit /\
  get_conversation repr (Some []) limit = get_conversation repr None limit /\
  trace w (list_memory repr (Some []) limit)
  = [Queried (lit "memorynote") (VDict ∅) limit] /\
  trace w (get_conversation repr (Some []) limit)
  = [Queried (lit "conversationturn") (VDict ∅) limit].
Proof.
  repeat split.
  - unfold trace. now rewrite list_memory_run.
  - unfold trace. now rewrite get_conversation_run.
Qed.

End ListingFacts.

(** ** Words and [split] *)

Section TokenFacts.
Import PyStr Tokens.

Lemma words_of_space c words text :
  isspace c = true -> words_of words text -> words_of words (c :: text).
Proof.
  intros Hc [gap Hgap | gap word words' text' Hgap Hne Hword Hnext Hrest].
  - apply (words_none (c :: gap)). simpl. now rewrite Hc.
  - change (c :: gap ++ word ++ text') with ((c :: gap) ++ word ++ text').
    apply words_more; try assumption. simpl. now rewrite Hc.
Qed.

Lemma words_of_split_from s : forall word,
  forallb (fun c => negb (isspace c)) word = true ->
  match word with
  | [] => words_of (split_from [] s) s
  | _ :: _ => words_of (split_from word s) (rev word ++ s)
  end.
Proof.
  assert (Hrev : forall word : list N,
            word <> [] -> forallb (fun c => negb (isspace c)) word = true ->
            rev word <> [] /\ forallb (fun c => negb (isspace c)) (rev word) = true).
  { intros word Hne A. split;
      [| rewrite forallb_forall in *; intros c Hin; apply A; now apply in_rev].
    intros E. apply (f_equal (@rev N)) in E. rewrite rev_involutive in E. now subst. }
  induction s as [| c s IH]; intros word A.
  - destruct word as [| x word]; [now apply words_none |].
    destruct (Hrev (x :: word) ltac:(discriminate) A) as [Hne Hword].
    cbn [split_from].
    apply (words_more [] (rev (x :: word)) [] []);
      [reflexivity | exact Hne | exact Hword | exact I | now apply words_none].
  - cbn [split_from]. destruct (isspace c) eqn:Hc.
    + pose proof (IH [] eq_refl) as Hrest. cbn in Hrest.
      destruct word as [| x word]; [now apply words_of_space |].
      destruct (Hrev (x :: word) ltac:(discriminate) A) as [Hne Hword].
      apply (words_more [] (rev (x :: word)) (split_from [] s) (c :: s));
        [reflexivity | exact Hne | exact Hword | exact Hc | now apply words_of_space].
    + assert (A' : forallb (fun c => negb (isspace c)) (c :: word) = true).
      { simpl. now rewrite Hc, A. }
      pose proof (IH (c :: word) A') as Hrest. cbn [rev] in Hrest.
      rewrite <- app_assoc in Hrest. cbn [app] in Hrest.
      destruct word as [| x word]; exact Hrest.
Qed.

(** Every text has its words, and [split] finds them ... *)
Lemma words_of_split s : words_of (split s) s.
Proof. exact (words_of_split_from s [] eq_refl). Qed.

(** ... and they are the only ones. *)
Lemma words_of_unique words s : words_of words s -> split s = words.
Proof.
  induction 1 as [gap Hgap | gap word words text Hgap Hne Hword Hnext _ IH].
  - unfold split. now rewrite split_from_spaces.
  - rewrite split_leading_spaces by exact Hgap. unfold split.
    rewrite split_from_word by exact Hword. rewrite app_nil_r.
    assert (Hrev : rev word <> []).
    { intros E. apply (f_equal (@rev N)) in E. rewrite rev_involutive in E. now subst. }
    destruct text as [| c text].
    + cbn [split_from]. destruct (rev word) eqn:E; [congruence |].
      rewrite <- E, rev_involutive. f_equal. exact IH.
    + cbn [split_from]. rewrite Hnext.
      destruct (rev word) eqn:E; [congruence |].
      rewrite <- E, rev_involutive. f_equal.
      rewrite <- IH. unfold split. cbn [split_from]. now rewrite Hnext.
Qed.

Lemma words_of_ascii words s :
  words_of words s -> is_ascii s -> Forall is_ascii words.
Proof.
  unfold is_ascii.
  induction 1 as [gap Hgap | gap word words text Hgap Hne Hword Hnext _ IH];
    intros Hs; [constructor |].
  apply Forall_app in Hs as [_ Hs]. apply Forall_app in Hs as [Hw Ht].
  constructor; [exact Hw | now apply IH].
Qed.

End TokenFacts.

(** ** Question answering *)

Section AskFacts.
Import PyStr Sentences.

Variable TRANSLATE_URL : str.
Variable lower : str -> str.

(** The notes a retrieval outcome leaves the handler with. *)
Lemma ask_question_run w payload :
  strip (QuestionIn.question payload) <> [] ->
  let q := strip (QuestionIn.question payload) in
  let filter_dict := keyword_filter (keywords_of lower q) in
  let query := Queried (lit "memorynote") filter_dict 20 in
  let mems :=
    match store w (lit "memorynote") filter_dict 20 with
    | Returned docs => docs
    | Raised _ => []
    end in
  run w (ask_question TRANSLATE_URL lower payload)
  = match context_of mems with
    | None => ([query], Uncaught (lit "TypeError"))
    | Some context =>
        let answer := answer_of context in
        match QuestionIn.target_lang payload with
        | Some (c :: s) =>
            ([query; Posted TRANSLATE_URL (translation_form answer (c :: s))],
             match http w TRANSLATE_URL (translation_form answer (c :: s)) with
             | Returned (VDict data) =>
                 Ok (VDict {[ lit "answer" :=
                   default (VStr answer) (data !! lit "translatedText") ]})
             | _ => Ok (VDict {[ lit "answer" := VStr answer ]})
             end)
        | _ => ([query], Ok (VDict {[ lit "answer" := VStr answer ]}))
        end
    end.
Proof.
  intros Hne. cbv zeta. unfold ask_question.
  destruct (strip (QuestionIn.question payload)) as [| c0 s0]; [congruence |].
  cbn [run].
  destruct (context_of _) as [context |]; [| reflexivity].
  destruct (QuestionIn.target_lang payload) as [[| c s] |]; try reflexivity.
  cbn [run].
  destruct (http w TRANSLATE_URL _) as [m | []]; try reflexivity.
  destruct (d !! lit "translatedText"); reflexivity.
Qed.

(** C4. The keywords of [ask_question] are the whitespace-separated words
    of the question that are longer than three characters, lower-cased (for
    an ASCII question: with [A]-[Z] replaced by [a]-[z]); the words are
    given by [Tokens.words_of], which every question satisfies for exactly
    one list of words.  The handler first queries [memorynote] with limit 20
    and the filter built from the keywords: one case-insensitive [$regex]
    clause on [content] per keyword under [$or], and the empty dict when
    there is no keyword. *)
Theorem ask_keywords_and_query (w : world) (payload : QuestionIn.t) :
  let question := QuestionIn.question payload in
  strip question <> [] ->
  (exists words, Tokens.words_of words question) /\
  (forall words, Tokens.words_of words question ->
     let keywords :=
       map lower (List.filter (fun token => (3 <? length token)%nat) words) in
     keywords_of lower (strip question) = keywords /\
     (exists later,
        trace w (ask_question TRANSLATE_URL lower payload)
        = Queried (lit "memorynote") (keyword_filter keywords) 20 :: later) /\
     (keywords = [] ->
      exists later,
        trace w (ask_question TRANSLATE_URL lower payload)
        = Queried (lit "memorynote") (VDict ∅) 20 :: later) /\
     (keywords <> [] ->
      keyword_filter keywords
      = VDict {[ lit "$or" := VList (map Tokens.regex_clause keywords) ]}) /\
     ((forall s, Tokens.is_ascii s -> lower s = Tokens.ascii_lowercase s) ->
      Tokens.is_ascii question ->
      keywords
      = map Tokens.ascii_lowercase
          (List.filter (fun token => (3 <? length token)%nat) words))).
Proof.
  intros question Hne.
  split; [exists (split question); apply words_of_split |].
  intros words Hwords keywords.
  pose proof (words_of_unique words question Hwords) as Hsplit.
  assert (E : keywords_of lower (strip question) = keywords).
  { unfold keywords_of. now rewrite split_strip, Hsplit. }
  assert (T : exists later,
             trace w (ask_question TRANSLATE_URL lower payload)
             = Queried (lit "memorynote") (keyword_filter keywords) 20 :: later).
  { unfold trace. rewrite (ask_question_run w payload Hne). cbv zeta.
    fold question. rewrite E.
    destruct (context_of _); [| eexists; reflexivity].
    destruct (QuestionIn.target_lang payload) as [[| c s] |]; eexists; reflexivity. }
  split; [exact E |]. split; [exact T |]. split; [| split].
  - intros Hk. rewrite Hk in T. exact T.
  - intros Hk. destruct keywords; [congruence | reflexivity].
  - intros Hlower Hascii. unfold keywords. apply map_ext_in.
    intros token Hin. apply Hlower.
    apply filter_In in Hin as [Hin _].
    pose proof (words_of_ascii words question Hwords Hascii) as Hall.
    rewrite List.Forall_forall in Hall. now apply Hall.
Qed.

(** C5. [ask_question] answers 400 when the question is empty after
    stripping; for any other question, when retrieval leaves no notes (the
    store returned none, or the query raised), it answers 200 and the
    answer before translation is the fixed message. *)
Theorem ask_empty_or_no_notes (w : world) (payload : QuestionIn.t) :
  let q := strip (QuestionIn.question payload) in
  let found := store w (lit "memorynote") (keyword_filter (keywords_of lower q)) 20 in
  let message :=
    lit "I couldn't find related notes yet. Try saving key facts first, or ask a more specific question." in
  (q = [] ->
   run w (ask_question TRANSLATE_URL lower payload)
   = ([], HTTPException 400 (lit "Question is required"))) /\
  (q <> [] ->
   found = Returned [] \/ (exists failure, found = Raised failure) ->
   (exists answer,
      result w (ask_question TRANSLATE_URL lower payload)
      = Ok (VDict {[ lit "answer" := answer ]})) /\
   (truthy (QuestionIn.target_lang payload) = false ->
    result w (ask_question TRANSLATE_URL lower payload)
    = Ok (VDict {[ lit "answer" := VStr message ]})) /\
   (forall lang, QuestionIn.target_lang payload = Some lang -> lang <> [] ->
      trace w (ask_question TRANSLATE_URL lower payload)
      = [Queried (lit "memorynote") (keyword_filter (keywords_of lower q)) 20;
         Posted TRANSLATE_URL (translation_form message lang)])).
Proof.
  intros q found message. split.
  - intros Hq. unfold ask_question. fold q. now rewrite Hq.
  - intros Hne Hfound. unfold result, trace.
    rewrite (ask_question_run w payload Hne). cbv zeta. fold q. fold found.
    assert (Hmems : match found with Returned docs => docs | Raised _ => [] end = []).
    { destruct Hfound as [-> | [failure ->]]; reflexivity. }
    rewrite Hmems. change (context_of []) with (Some (@nil N)). cbv iota beta.
    change (answer_of []) with message.
    repeat split.
    + destruct (QuestionIn.target_lang payload) as [[| c s] |];
        try (eexists; reflexivity).
      cbn [snd]. destruct (http w TRANSLATE_URL _) as [m | []];
        eexists; reflexivity.
    + intros Hlang.
      destruct (QuestionIn.target_lang payload) as [[| c s] |];
        [reflexivity | discriminate | reflexivity].
    + intros lang -> Hl. destruct lang; [congruence | reflexivity].
Qed.


Lemma context_of_length mems context :
  context_of mems = Some context -> (length context <= 2000)%nat.
Proof.
  unfold context_of. destruct (strings _) as [snippets |]; [| discriminate].
  cbn. intros [= <-]. apply length_take_le.
Qed.


End AskFacts.

(** ** The theorems at sample requests *)

Section Instances.
Import PyStr Sentences Samples.

(** The four-sentence text of the specification. *)
Lemma summarize_first_middle_last_witness :
  (3 < length (re_split (strip cat_text)))%nat /\
  forall w,
    run w (summarize translate_url (SummarizeIn.Make cat_text None))
    = ([], Ok (VDict {[ lit "summary" :=
         VStr (lit "A cat sat. Then it woke. Finally it ran away.") ]})).
Proof.
  assert (H : (3 < length (re_split (strip cat_text)))%nat) by (vm_compute; lia).
  split; [exact H |]. intros w.
  destruct (summarize_first_middle_last translate_url
              (SummarizeIn.Make cat_text None) H)
    as (_ & _ & _ & a & b & c & H0 & H1 & H2 & _ & Hrun & _).
  vm_compute in H0, H1, H2.
  injection H0 as <-. injection H1 as <-. injection H2 as <-.
  exact (Hrun w eq_refl).
Defined.

Lemma summarize_short_text_unchanged_witness :
  (length (re_split (strip (lit "  One. Two.  "))) <= 3)%nat /\
  extractive_summary (strip (lit "  One. Two.  ")) = Some (lit "One. Two.") /\
  run offline (summarize translate_url (SummarizeIn.Make (lit "  One. Two.  ") None))
  = ([], Ok (VDict {[ lit "summary" := VStr (lit "One. Two.") ]})).
Proof.
  destruct (summarize_short_text_unchanged translate_url
              (SummarizeIn.Make (lit "  One. Two.  ") None))
    as (Hle & E & Hrun & _).
  - left. vm_compute. lia.
  - split; [exact Hle |]. split; [exact E |].
    apply (Hrun offline); [discriminate | reflexivity].
Defined.

Lemma translation_failure_policy_witness :
  result offline (translate_text translate_url (TextIn.Make (lit "hola") None))
  = HTTPException 500 (lit "Connection refused") /\
  result offline (summarize translate_url (SummarizeIn.Make cat_text (Some (lit "es"))))
  = Ok (VDict {[ lit "summary" :=
      VStr (lit "A cat sat. Then it woke. Finally it ran away.") ]}).
Proof.
  destruct (translation_failure_policy translate_url offline
              (fun _ _ => lit "Connection refused") (fun _ _ => eq_refl))
    as [Htranslate Hsummarize].
  split; [apply Htranslate |].
  destruct (Hsummarize (SummarizeIn.Make cat_text (Some (lit "es")))) as (s & E & R);
    [discriminate |].
  vm_compute in E. injection E as <-. exact R.
Defined.

Lemma translate_unrecognised_body_witness :
  result two_notes (translate_text translate_url (TextIn.Make (lit "hola") (Some (lit "de"))))
  = Ok (VDict {[ lit "translated" := VStr (lit "hola"); lit "target" := VStr (lit "de") ]}).
Proof.
  apply (translate_unrecognised_body translate_url two_notes
           (TextIn.Make (lit "hola") (Some (lit "de"))) error_body eq_refl).
  intros (data & E & [t Ht]). injection E as <-. vm_compute in Ht. discriminate.
Defined.

Lemma detect_always_answers_witness :
  result offline (detect_language libre_url (TextIn.Make (lit "hola") None))
  = Ok (VDict {[ lit "language" := VStr (lit "auto"); lit "confidence" := VInt 0 ]}).
Proof.
  apply (proj1 (proj2 (detect_always_answers libre_url offline
                         (TextIn.Make (lit "hola") None)))).
  left. eexists. reflexivity.
Defined.

Lemma listed_records_expose_string_id_witness :
  result two_notes (list_memory plain_repr None 50)
  = Ok (VDict {[ lit "items" :=
      VList (map (fun d => VDict (expose_id plain_repr d)) [note_a; note_b]) ]}) /\
  expose_id plain_repr note_a !! lit "id"
  = Some (VStr (lit "65f1a2b3c4d5e6f708091a2b")).
Proof.
  destruct (listed_records_expose_string_id plain_repr two_notes 50 [note_a; note_b])
    as (Hmemory & _ & Hid).
  split; [apply (Hmemory None eq_refl) |].
  destruct (Hid note_a) as [_ Hnote].
  apply (Hnote (VObjectId (lit "65f1a2b3c4d5e6f708091a2b"))). reflexivity.
Defined.

Lemma ask_keywords_and_query_witness :
  Tokens.words_of
    [lit "What"; lit "is"; lit "Photosynthesis"; lit "in"; lit "plants"]
    (lit "  What is  Photosynthesis in plants ") /\
  (exists later,
     trace offline (ask_question translate_url ascii_lower
                      (QuestionIn.Make (lit "  What is  Photosynthesis in plants ") None))
     = Queried (lit "memorynote")
         (VDict {[ lit "$or" :=
            VList [Tokens.regex_clause (lit "what");
                   Tokens.regex_clause (lit "photosynthesis");
                   Tokens.regex_clause (lit "plants")] ]}) 20 :: later) /\
  Tokens.words_of [lit "who"; lit "am"; lit "I"] (lit "who am I") /\
  (exists later,
     trace offline (ask_question translate_url ascii_lower
                      (QuestionIn.Make (lit "who am I") None))
     = Queried (lit "memorynote") (VDict ∅) 20 :: later).
Proof.
  assert (Hlong : Tokens.words_of
            [lit "What"; lit "is"; lit "Photosynthesis"; lit "in"; lit "plants"]
            (lit "  What is  Photosynthesis in plants ")).
  { exact (words_of_split (lit "  What is  Photosynthesis in plants ")). }
  assert (Hshort : Tokens.words_of [lit "who"; lit "am"; lit "I"] (lit "who am I")).
  { exact (words_of_split (lit "who am I")). }
  split; [exact Hlong |]. split; [| split; [exact Hshort |]].
  - destruct (ask_keywords_and_query translate_url ascii_lower offline
                (QuestionIn.Make (lit "  What is  Photosynthesis in plants ") None))
      as [_ Hkeywords]; [discriminate |].
    destruct (Hkeywords _ Hlong) as (_ & Hquery & _ & Hfilter & Hascii).
    rewrite Hfilter in Hquery by discriminate.
    rewrite Hascii in Hquery.
    + exact Hquery.
    + intros s _. reflexivity.
    + unfold Tokens.is_ascii. cbn [QuestionIn.question].
      apply List.Forall_forall. intros c Hin. vm_compute in Hin.
      repeat (destruct Hin as [<- | Hin]; [reflexivity |]). destruct Hin.
  - destruct (ask_keywords_and_query translate_url ascii_lower offline
                (QuestionIn.Make (lit "who am I") None))
      as [_ Hkeywords]; [discriminate |].
    destruct (Hkeywords _ Hshort) as (_ & _ & Hnone & _).
    apply Hnone. reflexivity.
Defined.

Lemma ask_empty_or_no_notes_witness :
  run offline (ask_question translate_url ascii_lower (QuestionIn.Make (lit "   ") None))
  = ([], HTTPException 400 (lit "Question is required")) /\
  result offline (ask_question translate_url ascii_lower
                    (QuestionIn.Make (lit "What is photosynthesis?") None))
  = Ok (VDict {[ lit "answer" := VStr no_notes_answer ]}).
Proof.
  split.
  - apply (ask_empty_or_no_notes translate_url ascii_lower offline
             (QuestionIn.Make (lit "   ") None)).
    reflexivity.
  - apply (ask_empty_or_no_notes translate_url ascii_lower offline
             (QuestionIn.Make (lit "What is photosynthesis?") None)).
    + discriminate.
    + right. eexists. reflexivity.
    + reflexivity.
Defined.


End Instances.

(** ** The string functions at sample texts *)

Section Samples_of_strings.
Import PyStr Sentences.

Example strip_example :
  strip (lit "  A cat sat.  ") = lit "A cat sat.".
Proof. reflexivity. Qed.

Example split_example :
  split (lit "  what is   photosynthesis ")
  = [lit "what"; lit "is"; lit "photosynthesis"].
Proof. reflexivity. Qed.

(** A terminator that is not followed by whitespace does not end a sentence,
    and a run of several whitespace characters is dropped as a whole. *)
Example re_split_example :
  re_split (lit "A cat sat. It slept!  Then? .it woke.")
  = [lit "A cat sat."; lit "It slept!"; lit "Then?"; lit ".it woke."].
Proof. reflexivity. Qed.

Example re_split_cat_text :
  re_split Samples.cat_text
  = [lit "A cat sat."; lit "It slept."; lit "Then it woke."; lit "Finally it ran away."].
Proof. reflexivity. Qed.

Example index_examples :
  index [10; 20; 30]%Z 0 = Some 10%Z /\
  index [10; 20; 30]%Z (-1) = Some 30%Z /\
  index [10; 20; 30]%Z 3 = None /\
  index [10; 20; 30]%Z (-4) = None.
Proof. repeat split. Qed.

Example keywords_example :
  keywords_of Samples.ascii_lower (lit "What is Photosynthesis in plants")
  = [lit "what"; lit "photosynthesis"; lit "plants"].
Proof. reflexivity. Qed.

End Samples_of_strings.

(** ** More about [strip] and [split] *)

Section StripFacts.
Import PyStr Sentences.

Lemma lstrip_no_leading_space s : starts_with_space (lstrip s) = false.
Proof.
  induction s as [| c s IH]; [reflexivity |].
  simpl. destruct (isspace c) eqn:Hc; [exact IH | simpl; exact Hc].
Qed.

Lemma lstrip_fixed s : starts_with_space s = false -> lstrip s = s.
Proof. destruct s as [| c s]; [reflexivity |]. simpl. now intros ->. Qed.

Lemma rstrip_fixed s : starts_with_space (rev s) = false -> rstrip s = s.
Proof. intros H. unfold rstrip. rewrite lstrip_fixed by exact H. apply rev_involutive. Qed.

Lemma rstrip_no_trailing_space s : starts_with_space (rev (rstrip s)) = false.
Proof. unfold rstrip. rewrite rev_involutive. apply lstrip_no_leading_space. Qed.

Lemma starts_with_space_app s t :
  s <> [] -> starts_with_space (s ++ t) = starts_with_space s.
Proof. destruct s; [congruence | reflexivity]. Qed.

Lemma rstrip_keeps_start s :
  starts_with_space s = false -> starts_with_space (rstrip s) = false.
Proof.
  intros H. destruct (rstrip_suffix s) as [ws [E _]].
  destruct (rstrip s) as [| c r] eqn:Hr; [reflexivity |].
  rewrite E in H. exact H.
Qed.

Lemma lstrip_all_space s : lstrip s = [] <-> forallb isspace s = true.
Proof.
  induction s as [| c s IH]; [easy |].
  simpl. destruct (isspace c); [exact IH | easy].
Qed.

Lemma forallb_rev {A} (f : A -> bool) l : forallb f (rev l) = forallb f l.
Proof.
  induction l as [| x l IH]; [reflexivity |].
  simpl. rewrite forallb_app, IH. simpl. rewrite andb_true_r. apply andb_comm.
Qed.

Lemma rstrip_all_space s : rstrip s = [] <-> forallb isspace s = true.
Proof.
  unfold rstrip. rewrite <- (forallb_rev isspace s), <- lstrip_all_space.
  split; intros H.
  - apply (f_equal (@rev N)) in H. now rewrite rev_involutive in H.
  - now rewrite H.
Qed.

Lemma forallb_lstrip s : forallb isspace (lstrip s) = forallb isspace s.
Proof.
  induction s as [| c s IH]; [reflexivity |].
  simpl. destruct (isspace c) eqn:Hc; [exact IH | simpl; now rewrite Hc].
Qed.

(** Stripping leaves nothing exactly when the text is all whitespace. *)
Lemma strip_nil_iff s : strip s = [] <-> forallb isspace s = true.
Proof. unfold strip. now rewrite rstrip_all_space, forallb_lstrip. Qed.

Lemma strip_no_leading_space s : starts_with_space (strip s) = false.
Proof. apply rstrip_keeps_start, lstrip_no_leading_space. Qed.

Lemma strip_no_trailing_space s : starts_with_space (rev (strip s)) = false.
Proof. apply rstrip_no_trailing_space. Qed.

(** X1. [strip] removes all leading and trailing whitespace and nothing
    else: the result neither starts nor ends with whitespace, the text is the
    result between two runs of whitespace, and stripping again changes
    nothing. *)
Theorem strip_removes_outer_whitespace (s : list N) :
  starts_with_space (strip s) = false /\
  starts_with_space (rev (strip s)) = false /\
  (exists before behind,
     s = before ++ strip s ++ behind /\
     forallb isspace before = true /\ forallb isspace behind = true) /\
  strip (strip s) = strip s.
Proof.
  pose proof (strip_no_leading_space s) as H1.
  pose proof (strip_no_trailing_space s) as H2.
  repeat split; try assumption.
  - destruct (lstrip_prefix s) as [before [E1 A1]].
    destruct (rstrip_suffix (lstrip s)) as [behind [E2 A2]].
    exists before, behind. repeat split; try assumption.
    unfold strip. now rewrite <- E2.
  - unfold strip at 1. rewrite (lstrip_fixed _ H1). now apply rstrip_fixed.
Qed.

Lemma split_from_tokens s : forall word,
  forallb (fun c => negb (isspace c)) word = true ->
  Forall (fun token => token <> [] /\ forallb (fun c => negb (isspace c)) token = true)
         (split_from word s).
Proof.
  assert (Hword : forall word,
            word <> [] -> forallb (fun c => negb (isspace c)) word = true ->
            rev word <> [] /\ forallb (fun c => negb (isspace c)) (rev word) = true).
  { intros word Hne A. split; [| now rewrite forallb_rev].
    intros E. apply (f_equal (@rev N)) in E. rewrite rev_involutive in E. now subst. }
  induction s as [| c s IH]; intros word A.
  - simpl. destruct word; [constructor |].
    constructor; [now apply Hword | constructor].
  - simpl. destruct (isspace c) eqn:Hc.
    + destruct word; [now apply IH |].
      constructor; [now apply Hword | now apply IH].
    + apply IH. simpl. now rewrite Hc, A.
Qed.

Lemma concat_split_from s : forall word,
  concat (split_from word s)
  = rev word ++ List.filter (fun c => negb (isspace c)) s.
Proof.
  induction s as [| c s IH]; intros word.
  - simpl. destruct word as [| x word]; [reflexivity |].
    cbn [concat]. now rewrite !app_nil_r.
  - simpl. destruct (isspace c) eqn:Hc; simpl.
    + destruct word as [| x word]; [now rewrite IH |].
      cbn [concat]. now rewrite IH.
    + rewrite IH. simpl. now rewrite <- app_assoc.
Qed.

(** X2. The tokens of [split] are non-empty and free of whitespace, and put
    together they are the text with its whitespace removed: splitting loses
    whitespace and nothing else. *)
Theorem split_tokens (s : list N) :
  Forall (fun token => token <> [] /\ forallb (fun c => negb (isspace c)) token = true)
         (split s) /\
  concat (split s) = List.filter (fun c => negb (isspace c)) s.
Proof.
  split.
  - now apply split_from_tokens.
  - apply (concat_split_from s []).
Qed.

End StripFacts.

(** ** More about the sentences *)

Section SentencePieces.
Import PyStr Sentences.

Lemma has_boundary_cons x y r :
  has_boundary (x :: y :: r)
  = (is_terminator x && isspace y) || has_boundary (y :: r).
Proof. reflexivity. Qed.

Lemma has_boundary_snoc l p c :
  has_boundary (l ++ [p; c])
  = has_boundary (l ++ [p]) || (is_terminator p && isspace c).
Proof.
  induction l as [| x l IH].
  - cbn [app]. rewrite has_boundary_cons. simpl.
    now rewrite orb_false_r.
  - destruct l as [| y l].
    + cbn [app]. rewrite !has_boundary_cons. simpl.
      now rewrite !orb_false_r.
    + cbn [app] in *. rewrite !has_boundary_cons, IH. apply orb_assoc.
Qed.

Lemma split_scan_pieces_no_boundary s : forall st piece,
  has_boundary (rev piece) = false ->
  match piece with
  | [] => st <> AfterTerminator
  | p :: _ => st = after p
  end ->
  Forall (fun sentence => has_boundary sentence = false) (split_scan st piece s).
Proof.
  induction s as [| c s IH]; intros st piece Hpiece Hst.
  - simpl. constructor; [exact Hpiece | constructor].
  - assert (Hgap : Forall (fun sentence => has_boundary sentence = false)
                     (split_scan InGap [] s)).
    { apply IH; [reflexivity | discriminate]. }
    assert (Hfresh : Forall (fun sentence => has_boundary sentence = false)
                       (split_scan (after c) [c] s)).
    { apply IH; reflexivity. }
    assert (Hpush : (st = AfterTerminator -> isspace c = false) -> st <> InGap ->
              Forall (fun sentence => has_boundary sentence = false)
                (split_scan (after c) (c :: piece) s)).
    { intros Hc Hng. apply IH; [| reflexivity].
      destruct piece as [| p piece]; [reflexivity |].
      simpl. rewrite <- app_assoc. cbn [app].
      rewrite has_boundary_snoc. simpl in Hpiece. rewrite Hpiece. simpl.
      subst st. unfold after in *. destruct (is_terminator p); [| reflexivity].
      now rewrite Hc. }
    destruct st; cbn [split_scan].
    + destruct (isspace c) eqn:Hc.
      * constructor; assumption.
      * apply Hpush; [reflexivity | discriminate].
    + apply Hpush; discriminate.
    + destruct (isspace c); assumption.
Qed.

Lemma split_scan_fresh_pieces s : forall st piece,
  (st = InGap /\ piece = [])
  \/ (st <> InGap /\ piece <> [] /\ starts_with_space (rev piece) = false) ->
  Forall (fun sentence => starts_with_space sentence = false) (split_scan st piece s).
Proof.
  induction s as [| c s IH]; intros st piece H.
  - simpl. constructor; [| constructor].
    destruct H as [[_ ->] | (_ & _ & H)]; [reflexivity | exact H].
  - assert (Hafter : after c <> InGap).
    { unfold after. destruct (is_terminator c); discriminate. }
    assert (Hgap : Forall (fun sentence => starts_with_space sentence = false)
                     (split_scan InGap [] s)).
    { apply IH. now left. }
    destruct H as [[-> ->] | (Hst & Hne & Hpiece)].
    + cbn [split_scan]. destruct (isspace c) eqn:Hc; [exact Hgap |].
      apply IH. right. repeat split; [exact Hafter | discriminate | exact Hc].
    + assert (Hpush : Forall (fun sentence => starts_with_space sentence = false)
                        (split_scan (after c) (c :: piece) s)).
      { apply IH. right. repeat split; [exact Hafter | discriminate |].
        simpl. rewrite starts_with_space_app; [exact Hpiece |].
        intros E. apply (f_equal (@rev N)) in E. rewrite rev_involutive in E.
        now subst. }
      destruct st; cbn [split_scan]; [| exact Hpush | congruence].
      destruct (isspace c); [| exact Hpush].
      constructor; assumption.
Qed.

Lemma split_scan_later_pieces s : forall st piece,
  st <> InGap ->
  Forall (fun sentence => starts_with_space sentence = false)
         (tail (split_scan st piece s)).
Proof.
  induction s as [| c s IH]; intros st piece Hst; [constructor |].
  assert (Hafter : after c <> InGap).
  { unfold after. destruct (is_terminator c); discriminate. }
  destruct st; cbn [split_scan]; [| now apply IH | congruence].
  destruct (isspace c); [| now apply IH].
  cbn [tail]. apply split_scan_fresh_pieces. now left.
Qed.

Lemma re_split_pieces_no_boundary text :
  Forall (fun sentence => has_boundary sentence = false) (re_split text).
Proof. apply split_scan_pieces_no_boundary; [reflexivity | discriminate]. Qed.

Lemma re_split_later_pieces text i sentence :
  re_split text !! S i = Some sentence -> starts_with_space sentence = false.
Proof.
  intros H.
  pose proof (split_scan_later_pieces text AfterOther [] ltac:(discriminate)) as F.
  rewrite Forall_lookup in F. apply (F i). now rewrite lookup_tail.
Qed.

(** X3. What [re.split] leaves of the text, for every text: the sentences
    in order with non-empty whitespace gaps between them give back the text;
    no sentence has a terminator followed by whitespace inside it; every
    sentence but the first starts with a character that is not whitespace
    (or is empty); every sentence but the last ends with its terminator. *)
Theorem re_split_sentences (text : list N) :
  let sentences := re_split text in
  separated sentences text /\
  length sentences = S (count_boundaries text) /\
  Forall (fun sentence => has_boundary sentence = false) sentences /\
  (forall i sentence, sentences !! S i = Some sentence ->
     starts_with_space sentence = false) /\
  (forall i sentence, (S i < length sentences)%nat ->
     sentences !! i = Some sentence -> ends_with_terminator sentence).
Proof.
  repeat split.
  - apply re_split_separated.
  - apply re_split_length.
  - apply re_split_pieces_no_boundary.
  - apply re_split_later_pieces.
  - apply re_split_keeps_terminators.
Qed.

End SentencePieces.

(** ** The size and the shape of a summary *)

Section SummaryShape.
Import PyStr Sentences.

Lemma separated_length pieces text :
  separated pieces text ->
  (sum_list (map length pieces) + (length pieces - 1) <= length text)%nat.
Proof.
  induction 1 as [piece | piece gap pieces text Hgap _ Hsep IH].
  - simpl. lia.
  - assert (0 < length gap)%nat by (destruct gap; [congruence | simpl; lia]).
    assert (0 < length pieces)%nat by (inversion Hsep; simpl; lia).
    rewrite !length_app. simpl. lia.
Qed.

Lemma sum_list_lookup (l : list nat) i a :
  l !! i = Some a -> (a <= sum_list l)%nat.
Proof.
  revert i. induction l as [| x l IH]; intros [| i] H; try discriminate.
  - injection H as ->. simpl. lia.
  - simpl. specialize (IH i H). lia.
Qed.

Lemma sum_list_lookup_two (l : list nat) i j a b :
  (i < j)%nat -> l !! i = Some a -> l !! j = Some b ->
  (a + b <= sum_list l)%nat.
Proof.
  revert i j. induction l as [| x l IH]; intros [| i] [| j] Hij Ha Hb;
    try discriminate; try lia.
  - injection Ha as ->. simpl. pose proof (sum_list_lookup l j b Hb). lia.
  - simpl. assert (i < j)%nat by lia. specialize (IH i j H Ha Hb). lia.
Qed.

Lemma sum_list_lookup_three (l : list nat) i j k a b c :
  (i < j)%nat -> (j < k)%nat ->
  l !! i = Some a -> l !! j = Some b -> l !! k = Some c ->
  (a + b + c <= sum_list l)%nat.
Proof.
  revert i j k. induction l as [| x l IH]; intros [| i] [| j] [| k] Hij Hjk Ha Hb Hc;
    try discriminate; try lia.
  - injection Ha as ->. simpl.
    assert (j < k)%nat by lia.
    pose proof (sum_list_lookup_two l j k b c H Hb Hc). lia.
  - simpl. assert (i < j)%nat by lia. assert (j < k)%nat by lia.
    pose proof (IH i j k H H0 Ha Hb Hc). lia.
Qed.

Lemma lit_space : lit " " = [32%N].
Proof. reflexivity. Qed.

(** X4. The extractive summary is never longer than the text it is made
    from, and it is strictly shorter once the text has more than three
    sentences. *)
Theorem summary_not_longer (text summary : list N) :
  extractive_summary text = Some summary ->
  (length summary <= length text)%nat /\
  ((3 < length (re_split text))%nat -> (length summary < length text)%nat).
Proof.
  intros Hsum.
  destruct (le_lt_dec (length (re_split text)) 3) as [Hn | Hn].
  - rewrite (extractive_summary_short text Hn) in Hsum. injection Hsum as <-.
    split; lia.
  - destruct (extractive_summary_long text Hn) as (a & b & c & H0 & H1 & H2 & E).
    assert (Es : summary = a ++ lit " " ++ b ++ lit " " ++ c) by congruence.
    subst summary.
    pose proof (separated_length _ _ (re_split_separated text)) as Hlen.
    set (n := length (re_split text)) in *.
    assert (Hthree : (length a + length b + length c
                      <= sum_list (map length (re_split text)))%nat).
    { apply (sum_list_lookup_three _ 0 (n / 2) (n - 1)).
      - assert (2 <= n / 2)%nat by (apply Nat.div_le_lower_bound; lia). lia.
      - assert (n / 2 <= n - 2)%nat by (apply Nat.Div0.div_le_upper_bound; lia).
        lia.
      - now rewrite list_lookup_fmap, H0.
      - now rewrite list_lookup_fmap, H1.
      - now rewrite list_lookup_fmap, H2. }
    rewrite !length_app. change (length (lit " ")) with 1%nat. split; lia.
Qed.

End SummaryShape.

(** ** Summarising a summary *)

Section SummaryAgain.
Import PyStr Sentences.

Variable TRANSLATE_URL : str.

Lemma separated_first pieces text :
  separated pieces text ->
  exists first rest, pieces !! 0%nat = Some first /\ text = first ++ rest.
Proof.
  intros [piece | piece gap pieces' text' _ _ _].
  - exists piece, []. now rewrite app_nil_r.
  - exists piece, (gap ++ text'). split; reflexivity.
Qed.

Lemma separated_last_piece pieces text :
  separated pieces text ->
  exists before final,
    last pieces = Some final /\ text = before ++ final /\
    ((length pieces = 1%nat /\ before = [])
     \/ ((1 < length pieces)%nat /\ starts_with_space (rev before) = true)).
Proof.
  induction 1 as [piece | piece gap pieces text Hgap Hspace Hsep IH].
  - exists [], piece. repeat split. now left.
  - destruct IH as (before & final & Hlast & -> & Hbefore).
    exists (piece ++ gap ++ before), final. split; [| split].
    + inversion Hsep; subst; exact Hlast.
    + now rewrite <- !app_assoc.
    + right. split.
      * destruct Hbefore as [[? _] | [? _]]; simpl; lia.
      * rewrite !rev_app_distr.
        destruct Hbefore as [[_ ->] | [_ Hb]].
        -- simpl. rewrite starts_with_space_app.
           ++ destruct gap as [| g gap] using rev_ind; [congruence |].
              rewrite rev_app_distr. simpl.
              rewrite forallb_app in Hspace. simpl in Hspace.
              now destruct (isspace g); [| rewrite andb_false_r in Hspace].
           ++ intros E. apply (f_equal (@rev N)) in E.
              rewrite rev_involutive in E. now subst.
        -- rewrite <- app_assoc. rewrite starts_with_space_app; [exact Hb |].
           intros E. now rewrite E in Hb.
Qed.

Lemma ends_with_terminator_not_nil piece : ends_with_terminator piece -> piece <> [].
Proof. intros (body & p & -> & _). now destruct body. Qed.

(** The summary of a text of more than three sentences has exactly the
    three chosen sentences. *)
Lemma summary_three_sentences text a b c :
  let sentences := re_split text in
  let n := length sentences in
  (3 < n)%nat ->
  sentences !! 0%nat = Some a ->
  sentences !! (n / 2)%nat = Some b ->
  sentences !! (n - 1)%nat = Some c ->
  re_split (a ++ lit " " ++ b ++ lit " " ++ c) = [a; b; c].
Proof.
  intros sentences n Hn H0 H1 H2. rewrite lit_space.
  pose proof (re_split_pieces_no_boundary text) as Hnb.
  rewrite Forall_lookup in Hnb. fold sentences in Hnb.
  assert (Hmid : (2 <= n / 2)%nat) by (apply Nat.div_le_lower_bound; lia).
  assert (Hmid' : (n / 2 <= n - 2)%nat) by (apply Nat.Div0.div_le_upper_bound; lia).
  destruct (n / 2)%nat as [| j] eqn:Ej; [lia |].
  destruct (n - 1)%nat as [| k] eqn:Ek; [lia |].
  pose proof (re_split_keeps_terminators text 0 a ltac:(fold sentences; fold n; lia) H0)
    as (a' & pa & -> & Hpa).
  pose proof (re_split_keeps_terminators text (S j) b
                ltac:(fold sentences; fold n; lia) H1) as Hb.
  pose proof (ends_with_terminator_not_nil b Hb) as Hbne.
  destruct Hb as (b' & pb & Eb & Hpb).
  pose proof (re_split_later_pieces text j b H1) as Hbs.
  pose proof (re_split_later_pieces text k c H2) as Hcs.
  rewrite <- app_assoc. cbn [app].
  change (a' ++ pa :: 32%N :: b ++ 32%N :: c)
    with (a' ++ pa :: [32%N] ++ (b ++ 32%N :: c)).
  rewrite re_split_leftmost;
    [| exact (Hnb _ _ H0) | exact Hpa | discriminate | reflexivity
     | now rewrite starts_with_space_app].
  f_equal. pose proof (Hnb _ _ H1) as Hbb. rewrite Eb in Hbb |- *.
  rewrite <- app_assoc. cbn [app].
  change (b' ++ pb :: 32%N :: c) with (b' ++ pb :: [32%N] ++ c).
  rewrite re_split_leftmost;
    [| exact Hbb | exact Hpb | discriminate | reflexivity | exact Hcs].
  f_equal. apply re_split_no_boundary. exact (Hnb _ _ H2).
Qed.

Lemma extractive_summary_again text summary :
  extractive_summary text = Some summary ->
  (length (re_split summary) <= 3)%nat /\
  extractive_summary summary = Some summary.
Proof.
  intros Hsum.
  assert (Hle : (length (re_split summary) <= 3)%nat).
  { destruct (le_lt_dec (length (re_split text)) 3) as [Hn | Hn].
    - rewrite (extractive_summary_short text Hn) in Hsum. congruence.
    - destruct (extractive_summary_long text Hn) as (a & b & c & H0 & H1 & H2 & E).
      assert (Es : summary = a ++ lit " " ++ b ++ lit " " ++ c) by congruence.
      rewrite Es, (summary_three_sentences text a b c Hn H0 H1 H2). simpl. lia. }
  split; [exact Hle | now apply extractive_summary_short].
Qed.

Lemma strip_fixed s :
  starts_with_space s = false -> starts_with_space (rev s) = false -> strip s = s.
Proof.
  intros H1 H2. unfold strip. rewrite (lstrip_fixed s H1). now apply rstrip_fixed.
Qed.

(** The summary of a stripped text is itself stripped. *)
Lemma summary_is_stripped text summary :
  starts_with_space text = false -> starts_with_space (rev text) = false ->
  extractive_summary text = Some summary ->
  strip summary = summary.
Proof.
  intros Hstart Hend Hsum.
  destruct (le_lt_dec (length (re_split text)) 3) as [Hn | Hn].
  - rewrite (extractive_summary_short text Hn) in Hsum.
    assert (summary = text) by congruence. subst. now apply strip_fixed.
  - destruct (extractive_summary_long text Hn) as (a & b & c & H0 & H1 & H2 & E).
    assert (Es : summary = a ++ lit " " ++ b ++ lit " " ++ c) by congruence.
    subst summary. clear Hsum E.
    pose proof (re_split_separated text) as Hsep.
    apply strip_fixed.
    + destruct (separated_first _ _ Hsep) as (a0 & rest & Ha0 & Et).
      assert (a0 = a) by congruence. subst a0.
      assert (Hane : a <> []).
      { apply ends_with_terminator_not_nil.
        apply (re_split_keeps_terminators text 0); [lia | exact H0]. }
      rewrite starts_with_space_app by exact Hane.
      rewrite Et, starts_with_space_app in Hstart by exact Hane. exact Hstart.
    + destruct (separated_last_piece _ _ Hsep) as (before & final & Hlast & Et & Hb).
      rewrite last_lookup in Hlast.
      replace (Nat.pred (length (re_split text)))
        with (length (re_split text) - 1)%nat in Hlast by lia.
      assert (final = c) by congruence. subst final.
      destruct Hb as [[Hone _] | [_ Hb]]; [lia |].
      rewrite Et, rev_app_distr in Hend.
      assert (Hcne : rev c <> []).
      { intros Ec. rewrite Ec in Hend. simpl in Hend. congruence. }
      rewrite starts_with_space_app in Hend by exact Hcne.
      rewrite !app_assoc, rev_app_distr.
      now rewrite starts_with_space_app.
Qed.

(** X5. Summarising is idempotent: the summary returned for a request
    without target language has at most three sentences, and sending it back
    to [summarize] returns it unchanged. *)
Theorem summarize_idempotent (w : world) (payload : SummarizeIn.t) :
  strip (SummarizeIn.text payload) <> [] ->
  truthy (SummarizeIn.target_lang payload) = false ->
  exists summary,
    run w (summarize TRANSLATE_URL payload)
    = ([], Ok (VDict {[ lit "summary" := VStr summary ]})) /\
    (length (re_split summary) <= 3)%nat /\
    run w (summarize TRANSLATE_URL (SummarizeIn.Make summary None))
    = ([], Ok (VDict {[ lit "summary" := VStr summary ]})).
Proof.
  intros Hne Hlang.
  destruct (extractive_summary_total (strip (SummarizeIn.text payload))) as [summary E].
  destruct (extractive_summary_again _ _ E) as [Hle Eagain].
  pose proof (strip_no_leading_space (SummarizeIn.text payload)) as Hstart.
  pose proof (strip_no_trailing_space (SummarizeIn.text payload)) as Hend.
  pose proof (summary_is_stripped _ _ Hstart Hend E) as Hfixed.
  exists summary. split; [now apply summarize_untranslated |].
  split; [exact Hle |].
  apply summarize_untranslated; cbn [SummarizeIn.text SummarizeIn.target_lang];
    rewrite ?Hfixed; try assumption; [| reflexivity].
  intros ->. destruct (le_lt_dec (length (re_split (strip (SummarizeIn.text payload)))) 3)
    as [Hn | Hn].
  - rewrite (extractive_summary_short _ Hn) in E. congruence.
  - destruct (extractive_summary_long _ Hn) as (a & b & c & _ & _ & _ & E').
    rewrite E' in E. injection E as E. now destruct a.
Qed.

End SummaryAgain.

(** ** Status and translation of [summarize] *)

Section SummarizeStatus.
Import PyStr Sentences.

Variable TRANSLATE_URL : str.

(** X6. [summarize] answers 400 exactly for the texts made of whitespace
    only (the empty text included), without calling anything; for every
    other text it answers 200 with a [summary], whatever the translation
    service does. *)
Theorem summarize_status (w : world) (payload : SummarizeIn.t) :
  (forallb isspace (SummarizeIn.text payload) = true ->
   run w (summarize TRANSLATE_URL payload)
   = ([], HTTPException 400 (lit "Text is required"))) /\
  (forallb isspace (SummarizeIn.text payload) = false ->
   exists summary,
     result w (summarize TRANSLATE_URL payload)
     = Ok (VDict {[ lit "summary" := summary ]})).
Proof.
  split; intros Hspace.
  - apply strip_nil_iff in Hspace. unfold summarize. now rewrite Hspace.
  - assert (Hne : strip (SummarizeIn.text payload) <> []).
    { intros E. apply strip_nil_iff in E. congruence. }
    destruct (extractive_summary_total (strip (SummarizeIn.text payload))) as [s E].
    unfold result. rewrite (summarize_run TRANSLATE_URL w payload s Hne E).
    destruct (SummarizeIn.target_lang payload) as [[| c l] |];
      try (eexists; reflexivity).
    cbn [snd]. destruct (http w TRANSLATE_URL _) as [m | []];
      eexists; reflexivity.
Qed.

(** X7. When a target language is set and the translation service answers
    with an object holding [translatedText], [summarize] returns that value
    as the summary, as it is; the text it sent for translation is the
    extractive summary. *)
Theorem summarize_translated
    (w : world) (payload : SummarizeIn.t) (lang : list N)
    (data : gmap (list N) value) (translated : value) :
  strip (SummarizeIn.text payload) <> [] ->
  SummarizeIn.target_lang payload = Some lang -> lang <> [] ->
  (forall summary,
     extractive_summary (strip (SummarizeIn.text payload)) = Some summary ->
     http w TRANSLATE_URL (translation_form summary lang) = Returned (VDict data)) ->
  data !! lit "translatedText" = Some translated ->
  result w (summarize TRANSLATE_URL payload)
  = Ok (VDict {[ lit "summary" := translated ]}).
Proof.
  intros Hne Hlang Hl Hhttp Hdata.
  destruct (extractive_summary_total (strip (SummarizeIn.text payload))) as [s E].
  unfold result. rewrite (summarize_run TRANSLATE_URL w payload s Hne E), Hlang.
  destruct lang as [| c l]; [congruence |].
  cbn [snd]. now rewrite (Hhttp s E), Hdata.
Qed.

End SummarizeStatus.

(** ** The answer of [ask_question] *)

Section AnswerFacts.
Import PyStr Sentences.

Variable TRANSLATE_URL : str.
Variable lower : str -> str.

(** X8. The condensation that [ask_question] appends to its answer: a
    context of at most two sentences is repeated whole; with more than two
    it is sentence 0, sentence [n / 2] and sentence [n - 1] joined by single
    spaces, so a context of exactly three sentences is condensed to all
    three of them (where [summarize] would keep the text as it is).  The
    fallback of the [except] branch is never needed. *)
Theorem condensed_context (context : list N) :
  let sentences := re_split context in
  let n := length sentences in
  ((n <= 2)%nat -> condensed context = context) /\
  ((2 < n)%nat ->
   exists first middle last,
     sentences !! 0%nat = Some first /\
     sentences !! (n / 2)%nat = Some middle /\
     sentences !! (n - 1)%nat = Some last /\
     condensed context = first ++ lit " " ++ middle ++ lit " " ++ last) /\
  (n = 3%nat -> condensed context = join (lit " ") sentences).
Proof.
  intros sentences n.
  assert (Hlong : (2 < n)%nat ->
            exists first middle last,
              sentences !! 0%nat = Some first /\
              sentences !! (n / 2)%nat = Some middle /\
              sentences !! (n - 1)%nat = Some last /\
              condensed context = first ++ lit " " ++ middle ++ lit " " ++ last).
  { intros Hn.
    assert (Hmid : (n / 2 < n)%nat) by (apply Nat.div_lt; lia).
    destruct (lookup_lt_is_Some_2 sentences 0%nat) as [a H0]; [fold n; lia |].
    destruct (lookup_lt_is_Some_2 sentences (n / 2)%nat) as [b H1]; [exact Hmid |].
    destruct (lookup_lt_is_Some_2 sentences (n - 1)%nat) as [c H2]; [fold n; lia |].
    exists a, b, c. repeat split; try assumption.
    unfold condensed. fold sentences. fold n.
    destruct (decide _) as [_ | Hle]; [| lia].
    change 0%Z with (Z.of_nat 0).
    rewrite index_nonneg by (fold n; lia). rewrite H0. simpl.
    replace (Z.of_nat n / 2)%Z with (Z.of_nat (n / 2)) by (now rewrite Nat2Z.inj_div).
    rewrite index_nonneg by exact Hmid. rewrite H1. simpl.
    rewrite index_last by apply re_split_not_nil. fold n. rewrite H2. simpl.
    reflexivity. }
  split; [| split; [exact Hlong |]].
  - intros Hn. unfold condensed. fold sentences. fold n.
    destruct (decide _) as [Hgt | _]; [lia | reflexivity].
  - intros Hn. destruct (Hlong ltac:(lia)) as (a & b & c & H0 & H1 & H2 & E).
    rewrite E. rewrite Hn in H1, H2.
    destruct sentences as [| x [| y [| z [| ? ?]]]]; try discriminate.
    cbn in H0, H1, H2. now injection H0 as ->; injection H1 as ->; injection H2 as ->.
Qed.

Lemma strings_none (vs : list value) :
  strings vs = None <-> Exists (fun v => forall s, v <> VStr s) vs.
Proof.
  induction vs as [| v vs IH].
  - split; [discriminate | intros H; inversion H].
  - destruct v; cbn [strings];
      try (split; [intros _; left; discriminate | reflexivity]).
    destruct (strings vs) eqn:E; cbn.
    + split; [discriminate |]. intros H. inversion H as [? ? Hv | ? ? Hvs]; subst.
      * now destruct (Hv s).
      * apply IH in Hvs. discriminate.
    + split; [| reflexivity]. intros _. right. now apply IH.
Qed.

Lemma context_of_none (mems : list (gmap (list N) value)) :
  context_of mems = None <->
  Exists (fun m : gmap (list N) value =>
            exists v, m !! lit "content" = Some v /\ forall s, v <> VStr s) mems.
Proof.
  unfold context_of.
  assert (H : strings (context_snippets mems) = None <->
              Exists (fun m : gmap (list N) value =>
                exists v, m !! lit "content" = Some v /\ forall s, v <> VStr s) mems).
  { rewrite strings_none, !List.Exists_exists. unfold context_snippets. split.
    - intros (v & Hin & Hv). apply in_map_iff in Hin as (m & <- & Hm).
      exists m. split; [exact Hm |].
      destruct (m !! lit "content") as [v |]; cbn in Hv; [now exists v |].
      now destruct (Hv []).
    - intros (m & Hm & v & Hc & Hv).
      exists v. split; [| exact Hv].
      apply in_map_iff. exists m. split; [now rewrite Hc | exact Hm]. }
  rewrite <- H. destruct (strings (context_snippets mems)); cbn; split; congruence.
Qed.

(** X9. Retrieval errors are swallowed, but a retrieved record whose
    [content] is present and not a string makes the newline join raise: the
    request then ends in an uncaught [TypeError] right after the query.
    When every [content] is a string or absent, a non-empty question is
    always answered with 200. *)
Theorem ask_question_content_types
    (w : world) (payload : QuestionIn.t) (mems : list (gmap (list N) value)) :
  let q := strip (QuestionIn.question payload) in
  let filter_dict := keyword_filter (keywords_of lower q) in
  q <> [] ->
  store w (lit "memorynote") filter_dict 20 = Returned mems ->
  (Exists (fun m : gmap (list N) value =>
             exists v, m !! lit "content" = Some v /\ forall s, v <> VStr s) mems ->
   run w (ask_question TRANSLATE_URL lower payload)
   = ([Queried (lit "memorynote") filter_dict 20], Uncaught (lit "TypeError"))) /\
  (Forall (fun m : gmap (list N) value =>
             forall v, m !! lit "content" = Some v -> exists s, v = VStr s) mems ->
   exists answer,
     result w (ask_question TRANSLATE_URL lower payload)
     = Ok (VDict {[ lit "answer" := answer ]})).
Proof.
  intros q filter_dict Hne Hstore.
  pose proof (ask_question_run TRANSLATE_URL lower w payload Hne) as Hrun.
  cbv zeta in Hrun. fold q in Hrun. fold filter_dict in Hrun.
  rewrite Hstore in Hrun. split.
  - intros Hbad. apply context_of_none in Hbad. now rewrite Hbad in Hrun.
  - intros Hgood. unfold result. rewrite Hrun.
    destruct (context_of mems) as [context |] eqn:E.
    + destruct (QuestionIn.target_lang payload) as [[| c l] |];
        try (eexists; reflexivity).
      cbn [snd]. destruct (http w TRANSLATE_URL _) as [m | []];
        eexists; reflexivity.
    + exfalso. apply context_of_none in E. rewrite List.Exists_exists in E.
      destruct E as (m & Hm & v & Hv & Hnot).
      rewrite List.Forall_forall in Hgood. destruct (Hgood m Hm v Hv) as [s ->].
      now destruct (Hnot s).
Qed.

End AnswerFacts.

(** ** Outside calls of the enriching handlers *)

Section Footprint.
Import PyStr Sentences.

Variable TRANSLATE_URL : str.
Variable lower : str -> str.
Variable repr : value -> str.

(** X10. [summarize] never touches the store and contacts the translation
    service at most once, and only when a target language is set.
    [ask_question] makes no call for an empty question; otherwise it queries
    [memorynote] once, first, and contacts the translation service at most
    once afterwards, only when a target language is set. *)
Theorem enrichment_calls (w : world) :
  (forall payload : SummarizeIn.t,
     trace w (summarize TRANSLATE_URL payload) = []
     \/ (truthy (SummarizeIn.target_lang payload) = true /\
         exists data, trace w (summarize TRANSLATE_URL payload)
                      = [Posted TRANSLATE_URL data])) /\
  (forall payload : QuestionIn.t,
     let q := strip (QuestionIn.question payload) in
     let query := Queried (lit "memorynote") (keyword_filter (keywords_of lower q)) 20 in
     (q = [] /\ trace w (ask_question TRANSLATE_URL lower payload) = [])
     \/ (q <> [] /\
         (trace w (ask_question TRANSLATE_URL lower payload) = [query]
          \/ (truthy (QuestionIn.target_lang payload) = true /\
              exists data, trace w (ask_question TRANSLATE_URL lower payload)
                           = [query; Posted TRANSLATE_URL data])))).
Proof.
  split.
  - intros payload.
    destruct (strip (SummarizeIn.text payload)) as [| c0 s0] eqn:Ht.
    + left. unfold trace, summarize. now rewrite Ht.
    + assert (Hne : strip (SummarizeIn.text payload) <> []) by congruence.
      destruct (extractive_summary_total (strip (SummarizeIn.text payload))) as [s E].
      unfold trace. rewrite (summarize_run TRANSLATE_URL w payload s Hne E).
      destruct (SummarizeIn.target_lang payload) as [[| c lang] |];
        [now left | | now left].
      right. split; [reflexivity | eexists; reflexivity].
  - intros payload q query.
    destruct q as [| c0 s0] eqn:Hq.
    + left. split; [reflexivity |]. unfold trace, ask_question. fold q. now rewrite Hq.
    + right. split; [discriminate |].
      assert (Hne : strip (QuestionIn.question payload) <> []).
      { fold q. congruence. }
      unfold trace. rewrite (ask_question_run TRANSLATE_URL lower w payload Hne).
      cbv zeta. fold q. rewrite Hq. fold query.
      destruct (context_of _); [| now left].
      destruct (QuestionIn.target_lang payload) as [[| c lang] |];
        [now left | | now left].
      right. split; [reflexivity | eexists; reflexivity].
Qed.

(** X11. A successful translation: [translate_text] posts the text as it
    came (not stripped) with source [auto] and the requested target, [en]
    when none or an empty one was given, and returns the service's
    [translatedText] as it is together with that target. *)
Theorem translate_text_success
    (w : world) (payload : TextIn.t) (data : gmap (list N) value) (translated : value) :
  let target :=
    match TextIn.target_lang payload with
    | Some (c :: l) => c :: l
    | _ => lit "en"
    end in
  let form :=
    VDict {[ lit "q" := VStr (TextIn.text payload);
             lit "source" := VStr (lit "auto");
             lit "target" := VStr target ]} in
  http w TRANSLATE_URL form = Returned (VDict data) ->
  data !! lit "translatedText" = Some translated ->
  run w (translate_text TRANSLATE_URL payload)
  = ([Posted TRANSLATE_URL form],
     Ok (VDict {[ lit "translated" := translated; lit "target" := VStr target ]})).
Proof.
  intros target form Hhttp Hdata. rewrite translate_text_run. cbv zeta.
  change (or_else (TextIn.target_lang payload) (lit "en")) with target.
  change (translation_form (TextIn.text payload) target) with form.
  now rewrite Hhttp, Hdata.
Qed.

(** X12. When the store query fails, both listings answer 500 with the
    exception's message as detail, after that single query. *)
Theorem listing_store_failure (w : world) (limit : Z) (message : list N) :
  (forall tag,
     store w (lit "memorynote") (memory_filter tag) limit = Raised message ->
     run w (list_memory repr tag limit)
     = ([Queried (lit "memorynote") (memory_filter tag) limit],
        HTTPException 500 message)) /\
  (forall session_id,
     store w (lit "conversationturn") (conversation_filter session_id) limit
     = Raised message ->
     run w (get_conversation repr session_id limit)
     = ([Queried (lit "conversationturn") (conversation_filter session_id) limit],
        HTTPException 500 message)).
Proof.
  split.
  - intros tag H. now rewrite list_memory_run, H.
  - intros session_id H. now rewrite get_conversation_run, H.
Qed.

(** X13. The id conversion of the listings touches nothing but the two id
    keys: every other field of a record is returned as stored, a record
    without ["_id"] is returned unchanged (an ["id"] of its own included),
    and converting twice is the same as converting once. *)
Theorem expose_id_only_ids (d : gmap (list N) value) :
  (forall key, key <> lit "_id" -> key <> lit "id" ->
     expose_id repr d !! key = d !! key) /\
  (d !! lit "_id" = None -> expose_id repr d = d) /\
  expose_id repr (expose_id repr d) = expose_id repr d.
Proof.
  split; [| split].
  - intros key H1 H2. now apply expose_id_keeps.
  - intros H. unfold expose_id. now rewrite H.
  - unfold expose_id at 1. now rewrite expose_id_hides_native.
Qed.

End Footprint.

(** ** The diagnostics report *)

Section DiagnosticsFacts.
Import PyStr.

Lemma report_keys_differ :
  lit "database_name" <> lit "database_url" /\
  lit "database_name" <> lit "collections" /\
  lit "database_url" <> lit "collections" /\
  lit "database_name" <> lit "connection_status" /\
  lit "database_url" <> lit "connection_status" /\
  lit "database_name" <> lit "database" /\
  lit "database_url" <> lit "database" /\
  lit "database_name" <> lit "backend" /\
  lit "database_url" <> lit "backend" /\
  lit "database" <> lit "collections" /\
  lit "database" <> lit "connection_status" /\
  lit "database" <> lit "backend" /\
  lit "connection_status" <> lit "collections" /\
  lit "connection_status" <> lit "backend" /\
  lit "collections" <> lit "backend".
Proof. repeat split; vm_compute; discriminate. Qed.

(** X14. The [database_url] and [database_name] fields of the report say
    only whether the two environment variables are set to a non-empty
    value: whatever the probe of the store wrote there before, the store's
    own name included, is overwritten. *)
Theorem report_environment_fields (db : option Database.t) (env : environ) :
  test_report db env !! lit "database_url"
  = Some (VStr (match DATABASE_URL env with
                | Some (_ :: _) => check_mark ++ lit " Set"
                | _ => cross_mark ++ lit " Not Set"
                end)) /\
  test_report db env !! lit "database_name"
  = Some (VStr (match DATABASE_NAME env with
                | Some (_ :: _) => check_mark ++ lit " Set"
                | _ => cross_mark ++ lit " Not Set"
                end)).
Proof.
  destruct report_keys_differ as (Hnu & _).
  unfold test_report. split.
  - rewrite lookup_insert_ne by exact Hnu. rewrite lookup_insert_eq.
    unfold set_or_not. now destruct (DATABASE_URL env) as [[| c s] |].
  - rewrite lookup_insert_eq.
    unfold set_or_not. now destruct (DATABASE_NAME env) as [[| c s] |].
Qed.

Lemma probe_collections (db : option Database.t) :
  probe db initial_report !! lit "collections"
  = Some (VList (map VStr
      match db with
      | Some handle =>
          match Database.name handle, Database.list_collection_names handle with
          | Some (Raised _), _ => []
          | _, Returned collections => take 10 collections
          | _, Raised _ => []
          end
      | None => []
      end)).
Proof.
  destruct report_keys_differ
    as (_ & Hnc & Huc & _ & _ & _ & _ & _ & _ & Hdc & _ & _ & Hsc & _ & _).
  assert (H0 : initial_report !! lit "collections" = Some (VList [])) by reflexivity.
  unfold probe. destruct db as [handle |].
  - destruct (Database.name handle) as [[e | name] |].
    + now rewrite !lookup_insert_ne by assumption.
    + destruct (Database.list_collection_names handle) as [e | collections].
      * now rewrite !lookup_insert_ne by assumption.
      * rewrite lookup_insert_ne by assumption. now rewrite lookup_insert_eq.
    + destruct (Database.list_collection_names handle) as [e | collections].
      * now rewrite !lookup_insert_ne by assumption.
      * rewrite lookup_insert_ne by assumption. now rewrite lookup_insert_eq.
  - now rewrite lookup_insert_ne by assumption.
Qed.

(** X15. The [collections] field of the report is a list of at most ten
    names: the first ten the store lists when the probe gets that far, and
    the empty list when there is no store handle or the probe fails. *)
Theorem report_collections (db : option Database.t) (env : environ) :
  exists shown,
    test_report db env !! lit "collections" = Some (VList (map VStr shown)) /\
    (length shown <= 10)%nat /\
    (forall handle collections,
       db = Some handle ->
       (forall e, Database.name handle <> Some (Raised e)) ->
       Database.list_collection_names handle = Returned collections ->
       shown = take 10 collections) /\
    (db = None
     \/ (exists handle e, db = Some handle /\
           (Database.name handle = Some (Raised e)
            \/ Database.list_collection_names handle = Raised e)) ->
     shown = []).
Proof.
  destruct report_keys_differ as (_ & Hnc & Huc & _).
  eexists. split; [| split; [| split]].
  - unfold test_report. rewrite !lookup_insert_ne by assumption.
    apply probe_collections.
  - destruct db as [handle |]; [| simpl; lia].
    destruct (Database.name handle) as [[e | name] |];
      [simpl; lia | |];
      (destruct (Database.list_collection_names handle);
       [simpl; lia | apply length_take_le]).
  - intros handle collections -> Hname ->.
    destruct (Database.name handle) as [[e | name] |]; try reflexivity.
    now destruct (Hname e).
  - intros [-> | (handle & e & -> & [-> | ->])]; try reflexivity.
    now destruct (Database.name handle) as [[] |].
Qed.

Lemma probe_database_length (db : option Database.t) :
  exists status,
    probe db initial_report !! lit "database" = Some (VStr status) /\
    (length status <= 75)%nat.
Proof.
  unfold probe. destruct db as [handle |].
  - destruct (Database.name handle) as [[e | name] |].
    + eexists. rewrite lookup_insert_eq. split; [reflexivity |].
      rewrite length_app. pose proof (length_take_le e 50).
      change (length cross_mark) with 1%nat. rewrite length_app.
      change (length (lit " Error: ")) with 8%nat. lia.
    + destruct (Database.list_collection_names handle) as [e | collections];
        eexists; rewrite lookup_insert_eq; (split; [reflexivity |]).
      * rewrite !length_app. pose proof (length_take_le e 50).
        change (length warning_sign) with 2%nat.
        change (length (lit "  Connected but Error: ")) with 23%nat. lia.
      * vm_compute. lia.
    + destruct (Database.list_collection_names handle) as [e | collections];
        eexists; rewrite lookup_insert_eq; (split; [reflexivity |]).
      * rewrite !length_app. pose proof (length_take_le e 50).
        change (length warning_sign) with 2%nat.
        change (length (lit "  Connected but Error: ")) with 23%nat. lia.
      * vm_compute. lia.
  - eexists. rewrite lookup_insert_eq. split; [reflexivity |]. vm_compute. lia.
Qed.

(** X16. The report always has the same six keys, its [backend] field is
    always the running mark, and its [database] field is a string of at most
    75 characters: an exception message is cut to its first 50 characters
    before it is put there. *)
Theorem report_shape (db : option Database.t) (env : environ) :
  dom (test_report db env)
  = {[ lit "backend"; lit "database"; lit "database_url"; lit "database_name";
       lit "connection_status"; lit "collections" ]} /\
  test_report db env !! lit "backend" = Some (VStr (check_mark ++ lit " Running")) /\
  exists status,
    test_report db env !! lit "database" = Some (VStr status) /\
    (length status <= 75)%nat.
Proof.
  destruct report_keys_differ
    as (_ & _ & _ & _ & _ & Hnd & Hud & Hnb & Hub & _ & _ & Hdb & _ & Hsb & _).
  split; [| split].
  - unfold test_report, probe, initial_report.
    destruct db as [handle |];
      [destruct (Database.name handle) as [[e | name] |];
       try destruct (Database.list_collection_names handle) |];
      rewrite ?dom_insert_L, dom_singleton_L; set_solver.
  - assert (H0 : initial_report !! lit "backend"
                 = Some (VStr (check_mark ++ lit " Running"))) by reflexivity.
    unfold test_report. rewrite !lookup_insert_ne by assumption.
    unfold probe. destruct db as [handle |];
      [destruct (Database.name handle) as [[e | name] |];
       try destruct (Database.list_collection_names handle) |];
      now rewrite !lookup_insert_ne by congruence.
  - destruct (probe_database_length db) as (status & Hs & Hlen).
    exists status. split; [| exact Hlen].
    unfold test_report. now rewrite !lookup_insert_ne by assumption.
Qed.

End DiagnosticsFacts.

(** ** These theorems at sample requests *)

Section MoreInstances.
Import PyStr Sentences Samples MoreSamples.

Lemma re_split_sentences_witness :
  re_split cat_text !! 1%nat = Some (lit "It slept.") /\
  starts_with_space (lit "It slept.") = false /\
  ends_with_terminator (lit "It slept.").
Proof.
  assert (H : re_split cat_text !! 1%nat = Some (lit "It slept.")) by reflexivity.
  destruct (re_split_sentences cat_text) as (_ & _ & _ & Hstart & Hend).
  split; [exact H |]. split.
  - exact (Hstart 0%nat _ H).
  - apply (Hend 1%nat); [vm_compute; lia | exact H].
Defined.

Lemma summary_not_longer_witness :
  extractive_summary cat_text
  = Some (lit "A cat sat. Then it woke. Finally it ran away.") /\
  (length (lit "A cat sat. Then it woke. Finally it ran away.") < length cat_text)%nat.
Proof.
  assert (H : extractive_summary cat_text
              = Some (lit "A cat sat. Then it woke. Finally it ran away."))
    by reflexivity.
  split; [exact H |].
  apply (summary_not_longer cat_text _ H). vm_compute. lia.
Defined.

Lemma summarize_idempotent_witness :
  exists summary,
    run offline (summarize translate_url (SummarizeIn.Make cat_text None))
    = ([], Ok (VDict {[ lit "summary" := VStr summary ]})) /\
    (length (re_split summary) <= 3)%nat /\
    run offline (summarize translate_url (SummarizeIn.Make summary None))
    = ([], Ok (VDict {[ lit "summary" := VStr summary ]})).
Proof.
  apply (summarize_idempotent translate_url offline (SummarizeIn.Make cat_text None));
    [discriminate | reflexivity].
Defined.

Lemma summarize_status_witness :
  run offline (summarize translate_url (SummarizeIn.Make [32; 10; 9]%N (Some (lit "es"))))
  = ([], HTTPException 400 (lit "Text is required")) /\
  exists summary,
    result offline (summarize translate_url (SummarizeIn.Make cat_text (Some (lit "es"))))
    = Ok (VDict {[ lit "summary" := summary ]}).
Proof.
  split.
  - apply (summarize_status translate_url offline
             (SummarizeIn.Make [32; 10; 9]%N (Some (lit "es")))).
    reflexivity.
  - apply (summarize_status translate_url offline
             (SummarizeIn.Make cat_text (Some (lit "es")))).
    reflexivity.
Defined.

Lemma summarize_translated_witness :
  result translating (summarize translate_url (SummarizeIn.Make cat_text (Some (lit "es"))))
  = Ok (VDict {[ lit "summary" := VStr (lit "Un gato se sento.") ]}).
Proof.
  apply (summarize_translated translate_url translating
           (SummarizeIn.Make cat_text (Some (lit "es"))) (lit "es")
           {[ lit "translatedText" := VStr (lit "Un gato se sento.") ]}).
  - discriminate.
  - reflexivity.
  - discriminate.
  - intros summary _. reflexivity.
  - reflexivity.
Defined.

Lemma condensed_context_witness :
  length (re_split three_sentences) = 3%nat /\
  condensed three_sentences = lit "Plants need light. They make sugar. Done".
Proof.
  assert (H : length (re_split three_sentences) = 3%nat) by reflexivity.
  split; [exact H |].
  rewrite (proj2 (proj2 (condensed_context three_sentences)) H). reflexivity.
Defined.

Lemma ask_question_content_types_witness :
  run ill_typed_store
    (ask_question translate_url ascii_lower
       (QuestionIn.Make (lit "What do plants make?") None))
  = ([Queried (lit "memorynote")
        (keyword_filter (keywords_of ascii_lower (lit "What do plants make?"))) 20],
     Uncaught (lit "TypeError")) /\
  exists answer,
    result translating
      (ask_question translate_url ascii_lower
         (QuestionIn.Make (lit "What do plants make?") None))
    = Ok (VDict {[ lit "answer" := answer ]}).
Proof.
  split.
  - apply (ask_question_content_types translate_url ascii_lower ill_typed_store
             (QuestionIn.Make (lit "What do plants make?") None)
             [note_a; ill_typed_note]); [discriminate | reflexivity |].
    right. left. exists (VInt 7). split; [reflexivity | discriminate].
  - apply (ask_question_content_types translate_url ascii_lower translating
             (QuestionIn.Make (lit "What do plants make?") None)
             [note_a]); [discriminate | reflexivity |].
    constructor; [| constructor].
    intros v Hv. vm_compute in Hv. injection Hv as <-. eexists. reflexivity.
Defined.

Lemma translate_text_success_witness :
  run translating (translate_text translate_url (TextIn.Make (lit " A cat sat. ") (Some [])))
  = ([Posted translate_url
        (VDict {[ lit "q" := VStr (lit " A cat sat. ");
                  lit "source" := VStr (lit "auto");
                  lit "target" := VStr (lit "en") ]})],
     Ok (VDict {[ lit "translated" := VStr (lit "Un gato se sento.");
                  lit "target" := VStr (lit "en") ]})).
Proof.
  apply (translate_text_success translate_url translating
           (TextIn.Make (lit " A cat sat. ") (Some []))
           {[ lit "translatedText" := VStr (lit "Un gato se sento.") ]});
    reflexivity.
Defined.

Lemma listing_store_failure_witness :
  run offline (list_memory plain_repr (Some (lit "biology")) 50)
  = ([Queried (lit "memorynote") (memory_filter (Some (lit "biology"))) 50],
     HTTPException 500 (lit "Database not available")) /\
  run offline (get_conversation plain_repr None 100)
  = ([Queried (lit "conversationturn") (VDict ∅) 100],
     HTTPException 500 (lit "Database not available")).
Proof.
  destruct (listing_store_failure plain_repr offline 50 (lit "Database not available"))
    as [Hmemory _].
  destruct (listing_store_failure plain_repr offline 100 (lit "Database not available"))
    as [_ Hconversation].
  split; [apply Hmemory | apply (Hconversation None)]; reflexivity.
Defined.

Lemma expose_id_only_ids_witness :
  expose_id plain_repr note_a !! lit "content"
  = Some (VStr (lit "Plants turn light into sugar.")) /\
  expose_id plain_repr {[ lit "id" := VInt 3 ]} = {[ lit "id" := VInt 3 ]}.
Proof.
  split.
  - destruct (expose_id_only_ids plain_repr note_a) as (Hkeep & _).
    rewrite Hkeep; [reflexivity | discriminate | discriminate].
  - apply (expose_id_only_ids plain_repr {[ lit "id" := VInt 3 ]}). reflexivity.
Defined.

Lemma report_collections_witness :
  test_report (Some healthy) configured !! lit "collections"
  = Some (VList (map VStr (map (fun c => [c])
       [97; 98; 99; 100; 101; 102; 103; 104; 105; 106]%N))) /\
  test_report (Some unreachable) configured !! lit "collections" = Some (VList []).
Proof.
  split.
  - destruct (report_collections (Some healthy) configured)
      as (shown & Hshown & _ & Hlisted & _).
    rewrite Hshown.
    rewrite (Hlisted healthy _ eq_refl ltac:(discriminate) eq_refl). reflexivity.
  - destruct (report_collections (Some unreachable) configured)
      as (shown & Hshown & _ & _ & Hfailed).
    rewrite Hshown, Hfailed; [reflexivity |].
    right. exists unreachable, (lit "timed out"). split; [reflexivity |].
    right. reflexivity.
Defined.

End MoreInstances.
